(** * ClassListWriter: the class-load event recorder of HotSpot CDS

    A shallow embedding of [src/hotspot/share/cds/classListWriter.cpp]:
    the identity registry ([get_id], [has_id], [handle_class_unloading]),
    the eligibility filter, the dependency gate and the log emitter
    ([write_to_stream]), and the entry points [init] and [write].

    - Every operation of the source runs with [ClassListFile_lock] held
      ([assert_locked]); the model is a sequential state machine whose
      transitions are these critical sections.
    - An [InstanceKlass*] is an address; the table [_id_table] is a
      finite map from addresses to ids, absent until [get_id] creates
      it.
    - [_total_ids] is an [int]: the increment is written with its
      32-bit wrap-around.
    - [write_to_stream] threads the static state and the stream through
      its calls and leaves through one of nine [return] statements; the
      model is a small monad that records at which statement a call
      ended, or the fault it ran into (a failed assertion of a debug
      build, a null stream, a read past the end of the location
      string). *)

From Stdlib Require Import ZArith String Ascii List Lia DecimalString.
From stdpp Require Import base option numbers list gmap strings.

Local Open Scope Z_scope.
Local Open Scope string_scope.

(** ** C strings and C integers *)

(** [int] is a 32-bit two's complement integer. *)
Definition INT_MAX : Z := 2147483647.
Definition INT_MIN : Z := -2147483648.

(** The value an [int] holds after an arithmetic result [z] is stored. *)
Definition int_wrap (z : Z) : Z := (z + 2 ^ 31) mod 2 ^ 32 - 2 ^ 31.

Definition char_code (c : ascii) : Z := Z.of_nat (nat_of_ascii c).

(** [strncmp(s1, s2, n)]: compares at most [n] characters; the end of a
    string is its terminating NUL, of code 0. *)
Fixpoint strncmp (s1 s2 : string) (n : nat) : Z :=
  match n with
  | O => 0
  | S n' =>
      match s1, s2 with
      | EmptyString, EmptyString => 0
      | EmptyString, String c2 _ => 0 - char_code c2
      | String c1 _, EmptyString => char_code c1
      | String c1 r1, String c2 r2 =>
          if Ascii.eqb c1 c2 then strncmp r1 r2 n'
          else char_code c1 - char_code c2
      end
  end.

(** [strcmp(s1, s2)]. *)
Fixpoint strcmp (s1 s2 : string) : Z :=
  match s1, s2 with
  | EmptyString, EmptyString => 0
  | EmptyString, String c2 _ => 0 - char_code c2
  | String c1 _, EmptyString => char_code c1
  | String c1 r1, String c2 r2 =>
      if Ascii.eqb c1 c2 then strcmp r1 r2
      else char_code c1 - char_code c2
  end.

(** [s + n] on a [const char*]: the string that starts [n] characters
    into [s].  [s + strlen(s)] points at the terminating NUL and is the
    empty string; anything further lies outside the array. *)
Fixpoint str_offset (s : string) (n : nat) {struct n} : option string :=
  match n with
  | O => Some s
  | S n' =>
      match s with
      | EmptyString => None
      | String _ r => str_offset r n'
      end
  end.

(** What [%d] prints for an [int]. *)
Definition print_int (z : Z) : string := NilZero.string_of_int (Z.to_int z).

(** ** Data model *)

(** An [InstanceKlass*]: an address, [nullptr] being 0. *)
Abbreviation klass_ptr := N (only parsing).
Definition nullptr : klass_ptr := 0%N.

Record ModuleEntry := { is_patched : bool }.

(** The fields of an [InstanceKlass] that the writer reads, with the
    address of the object itself. *)
Record InstanceKlass {CLD : Type} := {
  this : klass_ptr;
  name : string;
  class_loader_data : CLD;
  is_shared : bool;
  java_super : klass_ptr;
  local_interfaces : list klass_ptr;
  is_hidden : bool;
  module : ModuleEntry
}.
Arguments InstanceKlass : clear implicits.

Record ClassFileStream := { source : option string }.

(** An [outputStream] backed by a file: what has reached the file, and
    what was printed since the last [flush]. *)
Record outputStream := {
  os_file : string;
  os_buffer : string
}.

(** The table behind [_id_table]. *)
Abbreviation IDTable := (gmap N Z) (only parsing).

(** The static state of the writer, the flag [DumpLoadedClassList], the
    [cds] warning log and the state of the collaborators. *)
Record vm {World : Type} := {
  DumpLoadedClassList : option string;
  _classlist_file : option outputStream;
  _id_table : option IDTable;
  _total_ids : Z;
  cds_warnings : list string;
  world : World
}.
Arguments vm : clear implicits.

(** What the writer calls but does not define: the loader test and the
    unregistered-class registry of [SystemDictionaryShared], the jrt test
    of [ClassLoader], [is_enabled] of the class declaration, and the two
    build switches ([ASSERT] for debug builds, [_WINDOWS]). *)
Class Externals := {
  ClassLoaderData : Type;
  World : Type;
  is_builtin_loader : ClassLoaderData -> bool;
  add_unregistered_class :
    InstanceKlass ClassLoaderData -> World -> bool * World;
  has_jrt_entry : World -> bool;
  is_enabled : vm World -> bool;
  ASSERT : bool;
  WINDOWS : bool
}.

Abbreviation Klass := (InstanceKlass ClassLoaderData).
Abbreviation VM := (vm World).

(** How a call ends: normally with a value, at one of the [return]
    statements that leave the function early, or in a fault. *)
Inductive return_point :=
  | NoJrtEntry          (* write, line 60 *)
  | UnknownSource       (* line 114 *)
  | NotAFile            (* line 117 *)
  | SharedUnregistered  (* line 121 *)
  | RegistrationFailed  (* line 124 *)
  | SpeciesCode         (* line 130 *)
  | SuperWithoutId      (* line 136 *)
  | InterfaceWithoutId  (* line 144 *)
  | HiddenClass         (* line 150 *)
  | PatchedModule.      (* line 154 *)

Inductive fault :=
  | AssertionFailure (msg : string)
  | NullPointer
  | OutOfBounds.

Inductive outcome (A : Type) :=
  | Val (a : A)
  | Return (r : return_point)
  | Fault (f : fault).
Arguments Val {A} a.
Arguments Return {A} r.
Arguments Fault {A} f.

Section Writer.
Context {E : Externals}.

Definition set_id_table (t : option IDTable) (st : VM) : VM :=
  {| DumpLoadedClassList := DumpLoadedClassList st;
     _classlist_file := _classlist_file st;
     _id_table := t;
     _total_ids := _total_ids st;
     cds_warnings := cds_warnings st;
     world := world st |}.

Definition set_total_ids (n : Z) (st : VM) : VM :=
  {| DumpLoadedClassList := DumpLoadedClassList st;
     _classlist_file := _classlist_file st;
     _id_table := _id_table st;
     _total_ids := n;
     cds_warnings := cds_warnings st;
     world := world st |}.

Definition set_world (w : World) (st : VM) : VM :=
  {| DumpLoadedClassList := DumpLoadedClassList st;
     _classlist_file := _classlist_file st;
     _id_table := _id_table st;
     _total_ids := _total_ids st;
     cds_warnings := cds_warnings st;
     world := w |}.

Definition set_classlist_file (f : option outputStream) (st : VM) : VM :=
  {| DumpLoadedClassList := DumpLoadedClassList st;
     _classlist_file := f;
     _id_table := _id_table st;
     _total_ids := _total_ids st;
     cds_warnings := cds_warnings st;
     world := world st |}.

(** ** Identity registry *)

(** The mapping of [k], if the table exists and holds one. *)
Definition lookup_id (k : klass_ptr) (st : VM) : option Z :=
  match _id_table st with
  | Some t => t !! k
  | None => None
  end.

(** [get_id]: the table is created on first use; [put_if_absent] either
    finds the entry of [k] or creates one, which then receives
    [_total_ids++]. *)
Definition get_id (k : klass_ptr) (st : VM) : Z * VM :=
  let st1 :=
    match _id_table st with
    | None => set_id_table (Some ∅) st
    | Some _ => st
    end in
  let t := default ∅ (_id_table st1) in
  match t !! k with
  | Some v => (v, st1)
  | None =>
      let v := _total_ids st1 in
      (v, set_id_table (Some (<[k := v]> t))
            (set_total_ids (int_wrap (v + 1)) st1))
  end.

Definition has_id (k : klass_ptr) (st : VM) : bool :=
  match _id_table st with
  | Some t =>
      match t !! k with
      | Some _ => true
      | None => false
      end
  | None => false
  end.

Definition handle_class_unloading (klass : klass_ptr) (st : VM) : VM :=
  match _id_table st with
  | Some t => set_id_table (Some (delete klass t)) st
  | None => st
  end.

Definition set_DumpLoadedClassList (f : option string) (st : VM) : VM :=
  {| DumpLoadedClassList := f;
     _classlist_file := _classlist_file st;
     _id_table := _id_table st;
     _total_ids := _total_ids st;
     cds_warnings := cds_warnings st;
     world := world st |}.

(** [log_warning(cds)(msg)]. *)
Definition log_warning (msg : string) (st : VM) : VM :=
  {| DumpLoadedClassList := DumpLoadedClassList st;
     _classlist_file := _classlist_file st;
     _id_table := _id_table st;
     _total_ids := _total_ids st;
     cds_warnings := cds_warnings st ++ [msg];
     world := world st |}.

(** ** The monad of [write_to_stream]

    The function works on the stream it was handed (a pointer, possibly
    null) and on the static state; it may leave early through a [return]
    and it may fault. *)
Definition frame : Type := option outputStream * VM.
Definition M (A : Type) : Type := frame -> outcome A * frame.

Definition pure {A} (a : A) : M A := fun f => (Val a, f).

Definition bind {A B} (m : M A) (k : A -> M B) : M B :=
  fun f =>
    match m f with
    | (Val a, f') => k a f'
    | (Return r, f') => (Return r, f')
    | (Fault x, f') => (Fault x, f')
    end.

Definition return_at {A} (r : return_point) : M A := fun f => (Return r, f).
Definition crash {A} (x : fault) : M A := fun f => (Fault x, f).

(** A call of a function of the static state. *)
Definition call {A} (op : VM -> A * VM) : M A :=
  fun f => let (a, st') := op (snd f) in (Val a, (fst f, st')).

(** A read of the static state. *)
Definition query {A} (q : VM -> A) : M A :=
  fun f => (Val (q (snd f)), f).

(** How a call ends when it does not run to its end. *)
Definition abnormal {A} (o : outcome A) : option (return_point + fault) :=
  match o with
  | Val _ => None
  | Return r => Some (inl r)
  | Fault x => Some (inr x)
  end.

(** A computation that never ends the way [e] says. *)
Definition never_exits {A} (e : return_point + fault) (m : M A) : Prop :=
  forall f : frame, abnormal (fst (m f)) <> Some e.

End Writer.

Notation "'do' x <- m ; k" := (bind m (fun x => k))
  (at level 10, x name, m at level 100, k at level 200).
Notation "m >> k" := (bind m (fun _ => k))
  (at level 100, k at level 200, right associativity).

Section Stream.
Context {E : Externals}.

Definition newline : string := String (ascii_of_nat 10) EmptyString.

Definition os_print (txt : string) (o : outputStream) : outputStream :=
  {| os_file := os_file o; os_buffer := os_buffer o ++ txt |}.

Definition os_flush (o : outputStream) : outputStream :=
  {| os_file := os_file o ++ os_buffer o; os_buffer := "" |}.

(** [stream->print(...)], the text being already formatted. *)
Definition print (txt : string) : M unit :=
  fun f =>
    match fst f with
    | None => (Fault NullPointer, f)
    | Some o => (Val tt, (Some (os_print txt o), snd f))
    end.

Definition cr : M unit := print newline.

Definition flush : M unit :=
  fun f =>
    match fst f with
    | None => (Fault NullPointer, f)
    | Some o => (Val tt, (Some (os_flush o), snd f))
    end.

(** [assert(c, msg)]: checked in debug builds only. *)
Definition assert_that (c : bool) (msg : string) : M unit :=
  if ASSERT && negb c then crash (AssertionFailure msg) else pure tt.

Definition species_marker : string :=
  "_ClassSpecializer_generateConcreteSpeciesCode".

(** ** write_to_stream *)

(** Lines 141-146: the loop over the interfaces in the dependency
    gate. *)
Fixpoint check_interfaces (interfaces : list klass_ptr) : M unit :=
  match interfaces with
  | [] => pure tt
  | intf :: rest =>
      do b <- query (has_id intf);
      if negb b then return_at InterfaceWithoutId
      else check_interfaces rest
  end.

(** Lines 168-171: the loop that prints the interface ids. *)
Fixpoint print_interface_ids (interfaces : list klass_ptr) : M unit :=
  match interfaces with
  | [] => pure tt
  | intf :: rest =>
      do id <- call (get_id intf);
      print (" " ++ print_int id) >>
      print_interface_ids rest
  end.

(** Lines 107-155: the eligibility filter and the dependency gate. *)
Definition filter_and_gate (k : Klass) (cfs : option ClassFileStream)
  : M unit :=
  let loader_data := class_loader_data k in
  let is_builtin := is_builtin_loader loader_data in
  (if negb is_builtin then
     (if negb (is_shared k) then
        match cfs with
        | None => return_at UnknownSource
        | Some c =>
            match source c with
            | None => return_at UnknownSource
            | Some s =>
                if negb (strncmp s "file:" 5 =? 0)%Z
                then return_at NotAFile
                else pure tt
            end
        end
      else return_at SharedUnregistered) >>
     do registered <-
       call (fun st =>
               let (b, w) := add_unregistered_class k (world st) in
               (b, set_world w st));
     if negb registered then return_at RegistrationFailed else pure tt
   else pure tt) >>
  (match cfs with
   | Some c =>
       match source c with
       | Some s =>
           if (strcmp s species_marker =? 0)%Z
           then return_at SpeciesCode
           else pure tt
       | None => pure tt
       end
   | None => pure tt
   end) >>
  (let super := java_super k in
   (if negb (super =? nullptr)%N then
      do known <- query (has_id super);
      if negb known then return_at SuperWithoutId else pure tt
    else pure tt) >>
   check_interfaces (local_interfaces k)) >>
  (if is_hidden k then return_at HiddenClass else pure tt) >>
  (if is_patched (module k) then return_at PatchedModule else pure tt).

(** Lines 157-186: the record is printed and the stream flushed. *)
Definition emit_line (k : Klass) (cfs : option ClassFileStream) : M unit :=
  let loader_data := class_loader_data k in
  let is_builtin := is_builtin_loader loader_data in
  do id <- call (get_id (this k));
  print (name k ++ " id: " ++ print_int id) >>
  (if negb is_builtin then
     let super := java_super k in
     assert_that (negb (super =? nullptr)%N) "must be" >>
     do super_id <- call (get_id super);
     print (" super: " ++ print_int super_id) >>
     (match local_interfaces k with
      | [] => pure tt
      | interfaces =>
          print " interfaces:" >>
          print_interface_ids interfaces
      end) >>
     match cfs with
     | None => crash NullPointer
     | Some c =>
         match source c with
         | None => crash NullPointer
         | Some s =>
             match str_offset s (if WINDOWS then 6 else 5)%nat with
             | None => crash OutOfBounds
             | Some path => print (" source: " ++ path)
             end
         end
     end
   else pure tt) >>
  cr >>
  flush.

Definition write_to_stream (k : Klass) (cfs : option ClassFileStream)
  : M unit :=
  filter_and_gate k cfs >> emit_line k cfs.

(** ** init and write *)

Definition header : string :=
  "# NOTE: Do not modify this file." ++ newline ++
  "#" ++ newline ++
  "# This file is generated via the -XX:DumpLoadedClassList=<class_list_file> option" ++ newline ++
  "# and is used at CDS archive dump time (see -Xshare:dump)." ++ newline ++
  "#" ++ newline.

(** The statics as the file initialises them. *)
Definition boot (flag : option string) (w : World) : VM :=
  {| DumpLoadedClassList := flag;
     _classlist_file := None;
     _id_table := None;
     _total_ids := 0;
     cds_warnings := [];
     world := w |}.

(** [init]: with the flag set, the file is created and the five header
    lines are printed; the name of the file is not tracked. *)
Definition init (st : VM) : VM :=
  match DumpLoadedClassList st with
  | Some _ =>
      set_classlist_file (Some {| os_file := ""; os_buffer := header |}) st
  | None => st
  end.

Definition exploded_build_warning : string :=
  "DumpLoadedClassList and CDS are not supported in exploded build".

Definition write (k : Klass) (cfs : option ClassFileStream) (st : VM)
  : outcome unit * VM :=
  if ASSERT && negb (is_enabled st)
  then (Fault (AssertionFailure "must be"), st)
  else if negb (has_jrt_entry (world st))
  then (Return NoJrtEntry,
        set_DumpLoadedClassList None (log_warning exploded_build_warning st))
  else
    let '(r, (s, st')) := write_to_stream k cfs (_classlist_file st, st) in
    (r, set_classlist_file s st').

(** ** The log as a list of records *)

(** One record of the log: the class it was written for, its name and
    id and, for a class of a non-builtin loader, the id of the
    supertype, the ids of the interfaces and the source path. *)
Record LogLine := {
  ll_klass : klass_ptr;
  ll_name : string;
  ll_id : Z;
  ll_unregistered : option (Z * list Z * string)
}.

Definition render_interfaces (ids : list Z) : string :=
  match ids with
  | [] => ""
  | _ => " interfaces:" ++
         fold_right (fun id acc => " " ++ print_int id ++ acc) "" ids
  end.

(** The text of a record, without the line terminator. *)
Definition render_line (l : LogLine) : string :=
  ll_name l ++ " id: " ++ print_int (ll_id l) ++
  match ll_unregistered l with
  | None => ""
  | Some (super_id, interface_ids, path) =>
      " super: " ++ print_int super_id ++
      render_interfaces interface_ids ++
      " source: " ++ path
  end.

Fixpoint render_log (ls : list LogLine) : string :=
  match ls with
  | [] => ""
  | l :: rest => render_line l ++ newline ++ render_log rest
  end.

(** The ids a record refers to. *)
Definition references (l : LogLine) : list Z :=
  match ll_unregistered l with
  | None => []
  | Some (super_id, interface_ids, _) => super_id :: interface_ids
  end.

(** Every id a record refers to is the id of an earlier record. *)
Definition topological (ls : list LogLine) : Prop :=
  forall (i : nat) (l : LogLine) (id : Z),
    ls !! i = Some l -> In id (references l) ->
    exists (j : nat) (l' : LogLine),
      (j < i)%nat /\ ls !! j = Some l' /\ ll_id l' = id.

Definition id_of (p : klass_ptr) (st : VM) : Z := default 0 (lookup_id p st).

Definition source_path (cfs : option ClassFileStream) : string :=
  match cfs with
  | Some {| source := Some s |} =>
      default "" (str_offset s (if WINDOWS then 6 else 5)%nat)
  | _ => ""
  end.

(** The record of [k], read off the registry as [write_to_stream]
    leaves it. *)
Definition line_of (k : Klass) (cfs : option ClassFileStream) (st' : VM)
  : LogLine :=
  {| ll_klass := this k;
     ll_name := name k;
     ll_id := id_of (this k) st';
     ll_unregistered :=
       if is_builtin_loader (class_loader_data k) then None
       else Some (id_of (java_super k) st',
                  map (fun p => id_of p st') (local_interfaces k),
                  source_path cfs) |}.

(** ** Runs *)

Inductive event :=
  | LoadEvent (k : Klass) (cfs : option ClassFileStream)
  | UnloadEvent (klass : klass_ptr).

Definition step (e : event) (st : VM) : outcome unit * VM :=
  match e with
  | LoadEvent k cfs => write k cfs st
  | UnloadEvent p => (Val tt, handle_class_unloading p st)
  end.

(** The events are processed in order; a fault ends the run. *)
Fixpoint run (evs : list event) (st : VM) : outcome unit * VM :=
  match evs with
  | [] => (Val tt, st)
  | e :: rest =>
      match step e st with
      | (Fault x, st') => (Fault x, st')
      | (_, st') => run rest st'
      end
  end.

(** The record an event adds to the log: a load event that runs to the
    end of [write_to_stream] adds the record of its class. *)
Definition emitted (e : event) (st : VM) : list LogLine :=
  match e with
  | LoadEvent k cfs =>
      match write k cfs st with
      | (Val _, st') => [line_of k cfs st']
      | _ => []
      end
  | UnloadEvent _ => []
  end.

Fixpoint run_lines (evs : list event) (st : VM) : list LogLine :=
  match evs with
  | [] => []
  | e :: rest =>
      emitted e st ++
      match step e st with
      | (Fault _, _) => []
      | (_, st') => run_lines rest st'
      end
  end.

(** The class invariant behind the assertion of line 161: only
    [java.lang.Object] has no supertype, and a builtin loader defines
    it. *)
Definition has_super_if_unregistered (k : Klass) : Prop :=
  is_builtin_loader (class_loader_data k) = false -> java_super k <> nullptr.

Definition well_formed (e : event) : Prop :=
  match e with
  | LoadEvent k _ => has_super_if_unregistered k
  | UnloadEvent _ => True
  end.

(** All that was printed to a stream so far. *)
Definition os_text (o : outputStream) : string := os_file o ++ os_buffer o.

Definition file_text (st : VM) : string :=
  match _classlist_file st with
  | Some o => os_text o
  | None => ""
  end.

(** ** The checks of a load event, one by one *)

Inductive check :=
  | SharedCheck
  | SourceCheck
  | RegistrationCheck
  | SpeciesCheck
  | HiddenCheck
  | PatchedCheck
  | SuperGate
  | InterfaceGate.

(** Where the event is rejected if the check fails on it. *)
Definition rejects (c : check) (k : Klass) (cfs : option ClassFileStream)
  (st : VM) : option return_point :=
  let unregistered := negb (is_builtin_loader (class_loader_data k)) in
  match c with
  | SharedCheck =>
      if unregistered && is_shared k then Some SharedUnregistered else None
  | SourceCheck =>
      if unregistered then
        match cfs with
        | Some {| source := Some s |} =>
            if (strncmp s "file:" 5 =? 0)%Z then None else Some NotAFile
        | _ => Some UnknownSource
        end
      else None
  | RegistrationCheck =>
      if unregistered && negb (fst (add_unregistered_class k (world st)))
      then Some RegistrationFailed else None
  | SpeciesCheck =>
      match cfs with
      | Some {| source := Some s |} =>
          if (strcmp s species_marker =? 0)%Z then Some SpeciesCode else None
      | _ => None
      end
  | HiddenCheck => if is_hidden k then Some HiddenClass else None
  | PatchedCheck =>
      if is_patched (module k) then Some PatchedModule else None
  | SuperGate =>
      if negb (java_super k =? nullptr)%N && negb (has_id (java_super k) st)
      then Some SuperWithoutId else None
  | InterfaceGate =>
      if forallb (fun p => has_id p st) (local_interfaces k)
      then None else Some InterfaceWithoutId
  end.

(** The first check of [order] that rejects the event. *)
Fixpoint first_rejection (order : list check) (k : Klass)
  (cfs : option ClassFileStream) (st : VM) : option return_point :=
  match order with
  | [] => None
  | c :: rest =>
      match rejects c k cfs st with
      | Some r => Some r
      | None => first_rejection rest k cfs st
      end
  end.

(** The order of the specification: the six eligibility checks, then
    the dependency gate. *)
Definition spec_order : list check :=
  [SharedCheck; SourceCheck; RegistrationCheck; SpeciesCheck;
   HiddenCheck; PatchedCheck; SuperGate; InterfaceGate].

(** The order of the statements of [write_to_stream]. *)
Definition code_order : list check :=
  [SharedCheck; SourceCheck; RegistrationCheck; SpeciesCheck;
   SuperGate; InterfaceGate; HiddenCheck; PatchedCheck].

(** The static state once the filter has run: the registration of an
    unregistered class is attempted as soon as its source is known to
    be a file. *)
Definition after_registration (k : Klass) (cfs : option ClassFileStream)
  (st : VM) : VM :=
  match first_rejection [SharedCheck; SourceCheck] k cfs st with
  | Some _ => st
  | None =>
      if is_builtin_loader (class_loader_data k) then st
      else set_world (snd (add_unregistered_class k (world st))) st
  end.

(** ** Sequences of registry operations *)

Inductive registry_op :=
  | GetId (k : klass_ptr)
  | Remove (k : klass_ptr).

Definition apply_op (op : registry_op) (st : VM) : VM :=
  match op with
  | GetId k => snd (get_id k st)
  | Remove k => handle_class_unloading k st
  end.

(** The id an operation assigns: the one [get_id] returns when it
    creates the mapping. *)
Definition assigned (op : registry_op) (st : VM) : list Z :=
  match op with
  | GetId k => if has_id k st then [] else [fst (get_id k st)]
  | Remove _ => []
  end.

Fixpoint apply_ops (ops : list registry_op) (st : VM) : VM :=
  match ops with
  | [] => st
  | op :: rest => apply_ops rest (apply_op op st)
  end.

Fixpoint assigned_ids (ops : list registry_op) (st : VM) : list Z :=
  match ops with
  | [] => []
  | op :: rest => assigned op st ++ assigned_ids rest (apply_op op st)
  end.

(** [m] consecutive integers from [n] on. *)
Definition consecutive_from (n : Z) (m : nat) : list Z :=
  map (fun i => n + Z.of_nat i) (seq 0 m).

(** The live ids are distinct, and all below the counter. *)
Definition registry_ok (st : VM) : Prop :=
  0 <= _total_ids st /\
  (forall k v, lookup_id k st = Some v -> 0 <= v < _total_ids st) /\
  (forall k1 k2 v,
      lookup_id k1 st = Some v -> lookup_id k2 st = Some v -> k1 = k2).

(** Every live id is the id of a record of the log. *)
Definition logged (st : VM) (ls : list LogLine) : Prop :=
  forall p v, lookup_id p st = Some v -> exists l, In l ls /\ ll_id l = v.

(** ** The enable signal *)

(** Modelled from the spec: [is_enabled] is declared in
    classListWriter.hpp, which is not among the sources.  The
    specification describes the enable signal as "a configured output
    path that, when absent, means the recorder performs no work at
    all". *)
Definition spec_is_enabled (st : VM) : bool :=
  match DumpLoadedClassList st with
  | Some _ => true
  | None => false
  end.

(** Modelled from the spec: the callers of [write] are not among the
    sources; a write request reaches [write] only while the recorder is
    enabled, and otherwise performs no work at all. *)
Definition write_request (k : Klass) (cfs : option ClassFileStream)
  (st : VM) : outcome unit * VM :=
  if is_enabled st then write k cfs st else (Val tt, st).

Fixpoint write_requests (reqs : list (Klass * option ClassFileStream))
  (st : VM) : outcome unit * VM :=
  match reqs with
  | [] => (Val tt, st)
  | (k, cfs) :: rest =>
      match write_request k cfs st with
      | (Fault x, st') => (Fault x, st')
      | (_, st') => write_requests rest st'
      end
  end.

End Stream.

Section Frames.
Context {E : Externals}.

(** ** What a computation does to its frame *)

(** What has reached the file behind a stream, and all that was printed
    to it. *)
Definition flushed (s : option outputStream) : option string :=
  match s with
  | Some o => Some (os_file o)
  | None => None
  end.

Definition printed (s : option outputStream) : string :=
  match s with
  | Some o => os_text o
  | None => ""
  end.

(** [m] relates the frame it starts from to the frame it leaves, however
    it ends. *)
Definition preserves {A} (R : frame -> frame -> Prop) (m : M A) : Prop :=
  forall f : frame, R f (snd (m f)).

Definition same_flushed (f f' : frame) : Prop :=
  flushed (fst f') = flushed (fst f).

Definition text_extends (f f' : frame) : Prop :=
  exists t, printed (fst f') = printed (fst f) ++ t.

Definition same_world (f f' : frame) : Prop :=
  world (snd f') = world (snd f).

(** [m] runs to its end or leaves the file as it found it. *)
Definition flushes_at_end {A} (m : M A) : Prop :=
  forall f : frame,
    (exists a, fst (m f) = Val a) \/ same_flushed f (snd (m f)).

End Frames.

(** ** A concrete runtime

    Used to run the model on examples: three builtin loaders and custom
    ones, a registry of unregistered classes that refuses a name it
    already holds, and an enable test that follows the flag. *)
Module Demo.

Inductive loader := BootLoader | PlatformLoader | AppLoader | CustomLoader.

Definition builtin (l : loader) : bool :=
  match l with
  | CustomLoader => false
  | _ => true
  end.

Definition register (k : InstanceKlass loader) (w : list string)
  : bool * list string :=
  if bool_decide (name k ∈ w) then (false, w) else (true, name k :: w).

Definition runtime (jrt debug windows : bool) : Externals :=
  {| ClassLoaderData := loader;
     World := list string;
     is_builtin_loader := builtin;
     add_unregistered_class := register;
     has_jrt_entry := fun _ => jrt;
     is_enabled := fun st =>
       match DumpLoadedClassList st with Some _ => true | None => false end;
     ASSERT := debug;
     WINDOWS := windows |}.

Definition klass (p : N) (n : string) (l : loader) (super : N)
  (interfaces : list N) : InstanceKlass loader :=
  {| this := p; name := n; class_loader_data := l; is_shared := false;
     java_super := super; local_interfaces := interfaces;
     is_hidden := false; module := {| is_patched := false |} |}.

Definition Object_ := klass 1 "java/lang/Object" BootLoader 0 [].
Definition Runnable_ := klass 2 "java/lang/Runnable" BootLoader 1 [].
Definition Task_ := klass 3 "app/Task" CustomLoader 1 [2%N].

Definition jar : option ClassFileStream :=
  Some {| source := Some "file:/dir/foo.jar" |}.
Definition win_jar : option ClassFileStream :=
  Some {| source := Some "file:/C:/dir/foo.jar" |}.

Definition start (R : Externals) (w : @World R) : vm (@World R) :=
  @init R (@boot R (Some "classes.lst") w).

(** A hidden class of the application loader whose supertype has no id
    yet. *)
Definition hidden_orphan : InstanceKlass loader :=
  {| this := 9; name := "app/Task$$Lambda"; class_loader_data := AppLoader;
     is_shared := false; java_super := 1; local_interfaces := [];
     is_hidden := true; module := {| is_patched := false |} |}.

(** A packaged runtime, debug build, not Windows; the same on Windows;
    and an exploded build. *)
Definition R : Externals := runtime true true false.
Definition Rwin : Externals := runtime true true true.
Definition Rexploded : Externals := runtime false true false.

Definition events : list (@event R) :=
  [@LoadEvent R Object_ None; @LoadEvent R Runnable_ None;
   @LoadEvent R Task_ jar; @UnloadEvent R 2;
   @LoadEvent R hidden_orphan None].

(** The state once [Object_] and [Runnable_] are recorded. *)
Definition recorded (X : Externals) (st : vm (@World X))
  (o r : InstanceKlass (@ClassLoaderData X)) : vm (@World X) :=
  snd (@run X [@LoadEvent X o None; @LoadEvent X r None] st).

Definition st2 : vm (@World R) := recorded R (start R []) Object_ Runnable_.
Definition st2win : vm (@World Rwin) :=
  recorded Rwin (start Rwin []) Object_ Runnable_.

Definition console : outputStream := {| os_file := ""; os_buffer := "" |}.

Definition ops : list (@registry_op) :=
  [GetId 1; GetId 2; GetId 1; Remove 1; GetId 1; GetId 3].

End Demo.

(** More inputs for the concrete runtime. *)
Module Cases.

(** A location that is the bare scheme, and one that is no file. *)
Definition bare : option ClassFileStream :=
  Some {| source := Some "file:" |}.
Definition jrt : option ClassFileStream :=
  Some {| source := Some "jrt:/java.base" |}.

End Cases.

(** * localtab004: the agent that checks GetLocalVariableTable

    A shallow embedding of
    [test/hotspot/jtreg/vmTestbase/nsk/jvmti/GetLocalVariableTable/localtab004/localtab004.cpp]:
    [checkAttr], the native method [check] and [Agent_Initialize].  The
    JNI and JVMTI functions and the test framework are collaborators;
    what the agent prints through [NSK_COMPLAIN] and [NSK_DISPLAY] is
    kept as a list of messages. *)
Module Localtab.

Definition STATUS_FAILED : Z := 2.
Definition PASSED : Z := 0.
Definition JNI_OK : Z := 0.
Definition JNI_ERR : Z := -1.

(** Local variable info. *)
Record localVar := {
  v_name : string;
  v_sign : string
}.

Definition constr_lv : list localVar :=
  [ {| v_name := "this";
       v_sign := "Lnsk/jvmti/GetLocalVariableTable/localtab004a;" |};
    {| v_name := "constr_i"; v_sign := "I" |};
    {| v_name := "constr_l"; v_sign := "J" |};
    {| v_name := "constr_d"; v_sign := "D" |};
    {| v_name := "constr_f"; v_sign := "F" |};
    {| v_name := "constr_c"; v_sign := "C" |} ].

Definition finMeth_lv : list localVar :=
  [ {| v_name := "this";
       v_sign := "Lnsk/jvmti/GetLocalVariableTable/localtab004a;" |};
    {| v_name := "fin_c"; v_sign := "C" |};
    {| v_name := "fin_i"; v_sign := "J" |};
    {| v_name := "fin_j"; v_sign := "I" |};
    {| v_name := "fin_k"; v_sign := "J" |};
    {| v_name := "fin_l"; v_sign := "J" |};
    {| v_name := "fin_f"; v_sign := "F" |} ].

Definition statMeth_lv : list localVar :=
  [ {| v_name := "stat_x"; v_sign := "I" |};
    {| v_name := "stat_y"; v_sign := "I" |};
    {| v_name := "stat_z"; v_sign := "I" |};
    {| v_name := "stat_j"; v_sign := "D" |};
    {| v_name := "stat_i"; v_sign := "I" |} ].

(** Local variables of a method; [mid] is a [jmethodID], null being 0. *)
Record methodInfo := {
  inst : Z;
  m_name : string;
  m_sign : string;
  vcount : Z;
  vars : list localVar;
  mid : N
}.

(** The list of tested methods. *)
Definition methInfo : list methodInfo :=
  [ {| inst := 1; m_name := "<init>"; m_sign := "()V"; vcount := 6;
       vars := constr_lv; mid := 0 |};
    {| inst := 1; m_name := "finMethod"; m_sign := "(CJIJ)V"; vcount := 7;
       vars := finMeth_lv; mid := 0 |};
    {| inst := 0; m_name := "statMethod"; m_sign := "(III)D"; vcount := 5;
       vars := statMeth_lv; mid := 0 |} ].

(** The fields of a [jvmtiLocalVariableEntry] that the agent reads. *)
Record jvmtiLocalVariableEntry := {
  lv_name : string;
  lv_signature : string
}.

Record jvmtiCapabilities := {
  can_access_local_variables : bool
}.

(** The collaborators.  [GetLocalVariableTable] gives the table when
    [NSK_JVMTI_VERIFY] accepts the result of the call, the count being
    the length of the table; likewise [AddCapabilities] tells whether
    the call was accepted and [GetCapabilities] gives the capabilities
    when it was. *)
Record Collaborators := {
  GetObjectClass : N -> N;
  GetMethodID : N -> string -> string -> N;
  GetStaticMethodID : N -> string -> string -> N;
  GetLocalVariableTable : N -> option (list jvmtiLocalVariableEntry);
  nsk_jvmti_parseOptions : string -> bool;
  nsk_jvmti_createJVMTIEnv : N;
  AddCapabilities : jvmtiCapabilities -> bool;
  GetCapabilities : option jvmtiCapabilities
}.

Inductive message :=
  | COMPLAIN (text : string)
  | DISPLAY (text : string).

Definition dq : string := String (ascii_of_nat 34) EmptyString.
Definition tab : string := String (ascii_of_nat 9) EmptyString.

Definition kind (m : methodInfo) : string :=
  if (inst m =? 0)%Z then "static" else "instance".

(** The method as the messages name it. *)
Definition described (m : methodInfo) : string :=
  kind m ++ " method " ++ dq ++ m_name m ++ dq ++
  ", signature " ++ dq ++ m_sign m ++ dq.

Definition no_method_id (m : methodInfo) : message :=
  COMPLAIN ("TEST FAILURE: unable to get the method ID for the " ++
            described m ++ newline ++ newline).

Definition no_table (m : methodInfo) : message :=
  COMPLAIN ("TEST FAILED: unable to get local variable table" ++ newline ++
            tab ++ "for the " ++ described m ++ newline ++ newline).

Definition wrong_count (m : methodInfo) (count : Z) : message :=
  COMPLAIN ("TEST FAILED: " ++ described m ++ ": found " ++
            print_int count ++ " vars in the LocalVariableTable, expected " ++
            print_int (vcount m) ++ newline ++
            tab ++ "Here are the found vars:" ++ newline).

Definition found_var (j : Z) (e : jvmtiLocalVariableEntry) : message :=
  COMPLAIN (tab ++ "#" ++ print_int (j + 1) ++ ") name: " ++ dq ++
            lv_name e ++ dq ++ ", signature: " ++ dq ++ lv_signature e ++
            dq ++ newline).

Definition right_count (m : methodInfo) (count : Z) : message :=
  DISPLAY ("Checking vars in the LocalVariableTable of the " ++
           described m ++ " ..." ++ newline ++
           tab ++ "found " ++ print_int count ++
           " local vars as expected" ++ newline).

Definition wrong_signature (m : methodInfo) (e : jvmtiLocalVariableEntry)
  (v : localVar) : message :=
  COMPLAIN ("TEST FAILED: " ++ kind m ++ " method: " ++ dq ++ m_name m ++
            dq ++ ", signature: " ++ dq ++ m_sign m ++ dq ++ ": var " ++
            dq ++ lv_name e ++ dq ++ " has signature " ++ dq ++
            lv_signature e ++ dq ++
            " in the LocalVariableTable, expected " ++ dq ++ v_sign v ++
            dq ++ newline ++ newline).

Definition right_signature (e : jvmtiLocalVariableEntry) : message :=
  DISPLAY (tab ++ "found var " ++ dq ++ lv_name e ++ dq ++
           ", signature: " ++ dq ++ lv_signature e ++ dq ++
           " as expected" ++ newline).

(** The messages of lines 127-129, one per entry of the table. *)
Fixpoint found_vars (j : Z) (table : list jvmtiLocalVariableEntry)
  : list message :=
  match table with
  | [] => []
  | e :: rest => found_var j e :: found_vars (j + 1) rest
  end.

(** Lines 143-160: the loop over [k], from [k] on, [fuel] being
    [count - k].  An index outside [vars] has no result. *)
Fixpoint scan_expected (m : methodInfo) (e : jvmtiLocalVariableEntry)
  (k fuel : nat) (totRes : Z) (log : list message)
  : option (Z * list message) :=
  match fuel with
  | O => Some (totRes, log)
  | S fuel' =>
      match vars m !! k with
      | None => None
      | Some v =>
          if (strcmp (lv_name e) (v_name v) =? 0)%Z then
            if negb (strcmp (lv_signature e) (v_sign v) =? 0)%Z then
              Some (STATUS_FAILED, (log ++ [wrong_signature m e v])%list)
            else
              scan_expected m e (S k) fuel' totRes
                (log ++ [right_signature e])%list
          else scan_expected m e (S k) fuel' totRes log
      end
  end.

(** Lines 142-161: the loop over [j]. *)
Fixpoint scan_table (m : methodInfo) (table : list jvmtiLocalVariableEntry)
  (count : nat) (totRes : Z) (log : list message)
  : option (Z * list message) :=
  match table with
  | [] => Some (totRes, log)
  | e :: rest =>
      match scan_expected m e 0 count totRes log with
      | None => None
      | Some (totRes', log') => scan_table m rest count totRes' log'
      end
  end.

Definition set_mid (id : N) (m : methodInfo) : methodInfo :=
  {| inst := inst m; m_name := m_name m; m_sign := m_sign m;
     vcount := vcount m; vars := vars m; mid := id |}.

(** Lines 98-167: the loop over the methods still to check, with the
    value the function returns, the methods as the loop leaves them
    and the messages. *)
Fixpoint check_methods (C : Collaborators) (testedCls : N)
  (ms : list methodInfo) (totRes : Z) (log : list message)
  : option (Z * list methodInfo * list message) :=
  match ms with
  | [] => Some (totRes, [], log)
  | m :: rest =>
      let id :=
        if negb (inst m =? 0)%Z
        then GetMethodID C testedCls (m_name m) (m_sign m)
        else GetStaticMethodID C testedCls (m_name m) (m_sign m) in
      let m' := set_mid id m in
      if (id =? 0)%N then
        Some (STATUS_FAILED, m' :: rest, (log ++ [no_method_id m'])%list)
      else
        match GetLocalVariableTable C id with
        | None =>
            Some (STATUS_FAILED, m' :: rest, (log ++ [no_table m'])%list)
        | Some lv_table =>
            let count := Z.of_nat (length lv_table) in
            if negb (count =? vcount m')%Z then
              match
                check_methods C testedCls rest STATUS_FAILED
                  (log ++ wrong_count m' count :: found_vars 0 lv_table ++
                   [COMPLAIN newline])%list
              with
              | None => None
              | Some (r, rest', log') => Some (r, m' :: rest', log')
              end
            else
              match
                scan_table m' lv_table (length lv_table) totRes
                  (log ++ [right_count m' count])%list
              with
              | None => None
              | Some (totRes', log') =>
                  match
                    check_methods C testedCls rest totRes'
                      (log' ++ [DISPLAY newline])%list
                  with
                  | None => None
                  | Some (r, rest', log'') => Some (r, m' :: rest', log'')
                  end
              end
        end
  end.

(** The statics of the agent. *)
Record agent := {
  jvmti : N;
  caps : jvmtiCapabilities;
  methods : list methodInfo;
  messages : list message
}.

Definition loaded : agent :=
  {| jvmti := 0;
     caps := {| can_access_local_variables := false |};
     methods := methInfo;
     messages := [] |}.

Definition checkAttr (C : Collaborators) (testedCls : N) (a : agent)
  : option (Z * agent) :=
  match check_methods C testedCls (methods a) PASSED (messages a) with
  | None => None
  | Some (r, ms, log) =>
      Some (r, {| jvmti := jvmti a; caps := caps a;
                  methods := ms; messages := log |})
  end.

(** [Java_nsk_jvmti_GetLocalVariableTable_localtab004_check]. *)
Definition check (C : Collaborators) (testedObj : N) (a : agent)
  : option (Z * agent) :=
  let testedCls := GetObjectClass C testedObj in
  if negb (can_access_local_variables (caps a)) then Some (PASSED, a)
  else checkAttr C testedCls a.

Definition not_implemented : message :=
  DISPLAY ("Warning: access to local variables is not implemented" ++
           newline).

Definition Agent_Initialize (C : Collaborators) (options : string)
  (a : agent) : Z * agent :=
  if negb (nsk_jvmti_parseOptions C options) then (JNI_ERR, a)
  else
    let a1 := {| jvmti := nsk_jvmti_createJVMTIEnv C; caps := caps a;
                 methods := methods a; messages := messages a |} in
    if (jvmti a1 =? 0)%N then (JNI_ERR, a1)
    else
      let wanted := {| can_access_local_variables := true |} in
      let a2 := {| jvmti := jvmti a1; caps := wanted;
                   methods := methods a1; messages := messages a1 |} in
      if negb (AddCapabilities C wanted) then (JNI_ERR, a2)
      else
        match GetCapabilities C with
        | None => (JNI_ERR, a2)
        | Some got =>
            let a3 := {| jvmti := jvmti a2; caps := got;
                         methods := methods a2;
                         messages :=
                           if negb (can_access_local_variables got)
                           then messages a2 ++ [not_implemented]
                           else messages a2 |} in
            (JNI_OK, a3)
        end.

(** What [checkAttr] accepts of a method: its id is found, its table is
    obtained and has the expected number of entries, and no entry bears
    the name of an expected variable with another signature. *)
Definition method_passes (C : Collaborators) (testedCls : N)
  (m : methodInfo) : Prop :=
  let id :=
    if negb (inst m =? 0)%Z
    then GetMethodID C testedCls (m_name m) (m_sign m)
    else GetStaticMethodID C testedCls (m_name m) (m_sign m) in
  id <> 0%N /\
  exists lv_table,
    GetLocalVariableTable C id = Some lv_table /\
    Z.of_nat (length lv_table) = vcount m /\
    forall e v, In e lv_table -> In v (vars m) ->
                strcmp (lv_name e) (v_name v) = 0 ->
                strcmp (lv_signature e) (v_sign v) = 0.

(** [vcount] is the number of entries of [vars]. *)
Definition counted (m : methodInfo) : Prop :=
  vcount m = Z.of_nat (length (vars m)).

Definition is_complaint (msg : message) : bool :=
  match msg with
  | COMPLAIN _ => true
  | DISPLAY _ => false
  end.

Definition complains (log : list message) : bool := existsb is_complaint log.

(** The id the loop stores in [mid]. *)
Definition method_id (C : Collaborators) (testedCls : N) (m : methodInfo)
  : N :=
  if negb (inst m =? 0)%Z
  then GetMethodID C testedCls (m_name m) (m_sign m)
  else GetStaticMethodID C testedCls (m_name m) (m_sign m).

Definition resolved (C : Collaborators) (testedCls : N) (m : methodInfo)
  : methodInfo :=
  set_mid (method_id C testedCls m) m.

(** The entry bears the name of the expected variable, with another
    signature. *)
Definition clashes (e : jvmtiLocalVariableEntry) (v : localVar) : bool :=
  (strcmp (lv_name e) (v_name v) =? 0)%Z &&
  negb (strcmp (lv_signature e) (v_sign v) =? 0)%Z.

Definition table_clashes (m : methodInfo)
  (lv_table : list jvmtiLocalVariableEntry) : bool :=
  existsb (fun e => existsb (clashes e) (vars m)) lv_table.

(** The loop returns at this method: no id, or no table. *)
Definition stops (C : Collaborators) (testedCls : N) (m : methodInfo)
  : bool :=
  (method_id C testedCls m =? 0)%N ||
  match GetLocalVariableTable C (method_id C testedCls m) with
  | Some _ => false
  | None => true
  end.

Definition passes (C : Collaborators) (testedCls : N) (m : methodInfo)
  : bool :=
  negb (method_id C testedCls m =? 0)%N &&
  match GetLocalVariableTable C (method_id C testedCls m) with
  | Some lv_table =>
      (Z.of_nat (length lv_table) =? vcount m)%Z &&
      negb (table_clashes m lv_table)
  | None => false
  end.

End Localtab.

(** A virtual machine for the agent, to run it on examples. *)
Module LocaltabDemo.
Import Localtab.

Definition entry_of (v : localVar) : jvmtiLocalVariableEntry :=
  {| lv_name := v_name v; lv_signature := v_sign v |}.

Definition renamed_entry_of (v : localVar) : jvmtiLocalVariableEntry :=
  {| lv_name := "moved_" ++ v_name v; lv_signature := "Z" |}.

Definition instance_id (n : string) : N :=
  if String.eqb n "<init>" then 101
  else if String.eqb n "finMethod" then 102 else 0.

Definition static_id (n : string) : N :=
  if String.eqb n "statMethod" then 103 else 0.

Definition table_of (f : localVar -> jvmtiLocalVariableEntry) (id : N)
  : option (list jvmtiLocalVariableEntry) :=
  if (id =? 101)%N then Some (map f constr_lv)
  else if (id =? 102)%N then Some (map f finMeth_lv)
  else if (id =? 103)%N then Some (map f statMeth_lv)
  else None.

(** [tables]: how the machine fills its tables; [granted]: whether it
    grants access to local variables; [fin]: the id of [finMethod]. *)
Definition machine (tables : localVar -> jvmtiLocalVariableEntry)
  (granted : bool) (fin : N) : Collaborators :=
  {| GetObjectClass := fun _ => 7%N;
     GetMethodID := fun _ n _ =>
       if String.eqb n "finMethod" then fin else instance_id n;
     GetStaticMethodID := fun _ n _ => static_id n;
     GetLocalVariableTable := table_of tables;
     nsk_jvmti_parseOptions := fun _ => true;
     nsk_jvmti_createJVMTIEnv := 1%N;
     AddCapabilities := fun _ => true;
     GetCapabilities := Some {| can_access_local_variables := granted |} |}.

Definition faithful : Collaborators := machine entry_of true 102.
Definition renaming : Collaborators := machine renamed_entry_of true 102.
Definition without_access : Collaborators := machine entry_of false 102.
Definition without_finMethod : Collaborators := machine entry_of true 0.

Definition ready : agent :=
  {| jvmti := 1;
     caps := {| can_access_local_variables := true |};
     methods := methInfo;
     messages := [] |}.

Definition nth_method (i : nat) : methodInfo :=
  nth i methInfo
    {| inst := 0; m_name := ""; m_sign := ""; vcount := 0; vars := [];
       mid := 0 |}.

(** The agent once [checkAttr] has run on the faithful machine. *)
Definition checked : agent :=
  match checkAttr faithful 7 ready with
  | Some (_, a) => a
  | None => ready
  end.

End LocaltabDemo.

(** * Properties *)

Section Registry.
Context {E : Externals}.

(** ** The registry *)

Lemma has_id_lookup (k : N) (st : VM) :
  has_id k st = true <-> exists v, lookup_id k st = Some v.
Proof.
  unfold has_id, lookup_id.
  destruct (_id_table st) as [t|]; [destruct (t !! k) as [v|] |];
    split; intros H; eauto; try discriminate;
    destruct H as [v H]; discriminate.
Qed.

Lemma has_id_false_lookup (k : N) (st : VM) :
  has_id k st = false <-> lookup_id k st = None.
Proof.
  unfold has_id, lookup_id.
  destruct (_id_table st) as [t|]; [destruct (t !! k) as [v|] |];
    split; intros H; auto; discriminate.
Qed.

Lemma get_id_known (k : N) (st : VM) (v : Z) :
  lookup_id k st = Some v -> get_id k st = (v, st).
Proof.
  unfold lookup_id, get_id. intros H.
  destruct (_id_table st) as [t|] eqn:Ht; [|discriminate].
  rewrite Ht. simpl. rewrite H. reflexivity.
Qed.

Lemma get_id_fresh (k : N) (st : VM) :
  lookup_id k st = None ->
  get_id k st =
    (_total_ids st,
     set_id_table (Some (<[k := _total_ids st]> (default ∅ (_id_table st))))
       (set_total_ids (int_wrap (_total_ids st + 1)) st)).
Proof.
  unfold lookup_id, get_id. intros H.
  destruct (_id_table st) as [t|] eqn:Ht.
  - rewrite Ht. simpl. rewrite H. reflexivity.
  - simpl. rewrite lookup_empty. reflexivity.
Qed.

Lemma lookup_id_get_id (k p : N) (st : VM) :
  lookup_id p (snd (get_id k st)) =
    if decide (k = p) then Some (fst (get_id k st)) else lookup_id p st.
Proof.
  destruct (lookup_id k st) as [v|] eqn:Hk.
  - rewrite (get_id_known _ _ _ Hk). simpl.
    destruct (decide (k = p)); subst; auto.
  - rewrite (get_id_fresh _ _ Hk). unfold lookup_id at 1. simpl.
    rewrite lookup_insert.
    destruct (decide (k = p)); auto.
    unfold lookup_id. destruct (_id_table st); auto.
Qed.

Lemma lookup_id_get_id_same (k : N) (st : VM) :
  lookup_id k (snd (get_id k st)) = Some (fst (get_id k st)).
Proof. rewrite lookup_id_get_id. destruct (decide (k = k)); congruence. Qed.

Lemma lookup_id_get_id_kept (k p : N) (st : VM) (v : Z) :
  lookup_id p st = Some v -> lookup_id p (snd (get_id k st)) = Some v.
Proof.
  intros H. rewrite lookup_id_get_id.
  destruct (decide (k = p)); subst; auto.
  rewrite (get_id_known _ _ _ H). reflexivity.
Qed.

Lemma lookup_id_unloading (k p : N) (st : VM) :
  lookup_id p (handle_class_unloading k st) =
    if decide (k = p) then None else lookup_id p st.
Proof.
  unfold handle_class_unloading, lookup_id.
  destruct (_id_table st) as [t|] eqn:Ht; simpl.
  - rewrite lookup_delete. destruct (decide (k = p)); auto.
  - rewrite Ht. destruct (decide (k = p)); auto.
Qed.

Lemma get_id_frame (k : N) (st : VM) :
  let st' := snd (get_id k st) in
  DumpLoadedClassList st' = DumpLoadedClassList st /\
  _classlist_file st' = _classlist_file st /\
  cds_warnings st' = cds_warnings st /\
  world st' = world st.
Proof.
  unfold get_id.
  destruct (_id_table st) as [t|] eqn:Ht; simpl.
  - rewrite Ht. simpl. destruct (t !! k); simpl; auto.
  - rewrite lookup_empty. simpl. auto.
Qed.

Lemma int_wrap_small (z : Z) :
  INT_MIN <= z <= INT_MAX -> int_wrap z = z.
Proof.
  unfold int_wrap, INT_MIN, INT_MAX. intros H.
  rewrite Z.mod_small; lia.
Qed.

End Registry.

Section Filter.
Context {E : Externals}.

(** ** The filter and the gate *)

Lemma check_interfaces_spec (l : list N) (s : option outputStream) (st : VM) :
  check_interfaces l (s, st) =
    (if forallb (fun p => has_id p st) l
     then Val tt else Return InterfaceWithoutId, (s, st)).
Proof.
  induction l as [|p l IH]; simpl; [reflexivity|].
  unfold bind, query. simpl.
  destruct (has_id p st); simpl; [apply IH | reflexivity].
Qed.

Lemma has_id_set_world (p : N) (w : World) (st : VM) :
  has_id p (set_world w st) = has_id p st.
Proof. reflexivity. Qed.

Lemma filter_and_gate_spec (k : Klass) (cfs : option ClassFileStream)
  (s : option outputStream) (st : VM) :
  filter_and_gate k cfs (s, st) =
    (match first_rejection code_order k cfs st with
     | Some r => Return r
     | None => Val tt
     end, (s, after_registration k cfs st)).
Proof.
  unfold filter_and_gate, after_registration, code_order, first_rejection,
    rejects.
  set (b := forallb (fun p => has_id p st) (local_interfaces k)).
  destruct (is_builtin_loader (class_loader_data k)); simpl.
  all: destruct (is_shared k); simpl.
  all: destruct cfs as [[[src|]]|]; simpl.
  all: unfold bind, pure, return_at, call, query; simpl.
  all: try destruct (strncmp src "file:" 5 =? 0)%Z; simpl.
  all: try destruct (add_unregistered_class k (world st)) as [[|] w]; simpl.
  all: try destruct (strcmp src species_marker =? 0)%Z; simpl.
  all: try reflexivity.
  all: destruct (java_super k =? nullptr)%N; simpl.
  all: rewrite ?has_id_set_world.
  all: try destruct (has_id (java_super k) st); simpl.
  all: try reflexivity.
  all: rewrite check_interfaces_spec.
  all: change (forallb _ (local_interfaces k)) with b.
  all: destruct b; simpl.
  all: try reflexivity.
  all: destruct (is_hidden k); simpl; try reflexivity.
  all: destruct (is_patched (module k)); simpl; reflexivity.
Qed.

End Filter.

Section MonadLaws.
Context {E : Externals}.

(** ** Running the monad *)

Lemma bind_assoc {A B C} (m : M A) (k1 : A -> M B) (k2 : B -> M C)
  (f : frame) :
  bind (bind m k1) k2 f = bind m (fun a => bind (k1 a) k2) f.
Proof. unfold bind. destruct (m f) as [[a|r|x] f']; reflexivity. Qed.

Lemma bind_val {A B} (m : M A) (k : A -> M B) (f f' : frame) (a : A) :
  m f = (Val a, f') -> bind m k f = k a f'.
Proof. unfold bind. now intros ->. Qed.

Lemma bind_pure {A B} (a : A) (k : A -> M B) (f : frame) :
  bind (pure a) k f = k a f.
Proof. reflexivity. Qed.

Lemma bind_call {A B} (op : VM -> A * VM) (k : A -> M B)
  (s : option outputStream) (st : VM) :
  bind (call op) k (s, st) = k (fst (op st)) (s, snd (op st)).
Proof. unfold bind, call. simpl. now destruct (op st). Qed.

Lemma bind_print {B} (txt : string) (k : unit -> M B) (o : outputStream)
  (st : VM) :
  bind (print txt) k (Some o, st) = k tt (Some (os_print txt o), st).
Proof. reflexivity. Qed.

Lemma bind_return {A B} (r : return_point) (k : A -> M B) (f : frame) :
  bind (return_at r) k f = (Return r, f).
Proof. reflexivity. Qed.

Lemma bind_crash {A B} (x : fault) (k : A -> M B) (f : frame) :
  bind (crash x) k f = (Fault x, f).
Proof. reflexivity. Qed.

Lemma run_flush (o : outputStream) (st : VM) :
  flush (Some o, st) = (Val tt, (Some (os_flush o), st)).
Proof. reflexivity. Qed.

Lemma bind_val_inv {A B} (m : M A) (k : A -> M B) (f f' : frame) (b : B) :
  bind m k f = (Val b, f') ->
  exists a f1, m f = (Val a, f1) /\ k a f1 = (Val b, f').
Proof.
  unfold bind. destruct (m f) as [[a|r|x] f1]; intros H; try discriminate.
  eauto.
Qed.

End MonadLaws.

Ltac mrun :=
  repeat first
    [ rewrite bind_assoc
    | rewrite bind_pure
    | rewrite bind_call
    | rewrite bind_print
    | rewrite bind_return
    | rewrite bind_crash
    | progress cbv beta ].

Section Emitter.
Context {E : Externals}.

(** ** The emitter *)

Lemma str_app_assoc (a b c : string) : (a ++ b) ++ c = a ++ b ++ c.
Proof.
  induction a as [|x a IH]; [reflexivity|].
  change (String x ((a ++ b) ++ c) = String x (a ++ b ++ c)).
  f_equal. exact IH.
Qed.

Lemma str_app_nil_r (a : string) : a ++ "" = a.
Proof.
  induction a as [|x a IH]; [reflexivity|].
  change (String x (a ++ "") = String x a).
  f_equal. exact IH.
Qed.

Lemma str_app_nil_l (a : string) : "" ++ a = a.
Proof. reflexivity. Qed.

Lemma os_print_print (a b : string) (o : outputStream) :
  os_print b (os_print a o) = os_print (a ++ b) o.
Proof. unfold os_print. simpl. now rewrite str_app_assoc. Qed.

Lemma id_of_known (p : N) (st : VM) (v : Z) :
  lookup_id p st = Some v -> id_of p st = v.
Proof. unfold id_of. now intros ->. Qed.

Lemma print_interface_ids_known (l : list N) (o : outputStream) (st : VM) :
  (forall p, In p l -> has_id p st = true) ->
  print_interface_ids l (Some o, st) =
    (Val tt,
     (Some (os_print
              (fold_right (fun id acc => " " ++ print_int id ++ acc) ""
                 (map (fun p => id_of p st) l)) o), st)).
Proof.
  revert o. induction l as [|p l IH]; intros o Hl; simpl.
  - unfold pure, os_print. rewrite str_app_nil_r. now destruct o.
  - destruct (proj1 (has_id_lookup p st) (Hl p (or_introl eq_refl)))
      as [v Hv].
    mrun. rewrite (get_id_known _ _ _ Hv). cbn [fst snd].
    rewrite IH by (intros q Hq; apply Hl; now right).
    rewrite os_print_print, (id_of_known _ _ _ Hv).
    now rewrite str_app_assoc.
Qed.

Lemma emit_line_builtin (k : Klass) (cfs : option ClassFileStream)
  (o : outputStream) (st : VM) :
  is_builtin_loader (class_loader_data k) = true ->
  let st' := snd (get_id (this k) st) in
  emit_line k cfs (Some o, st) =
    (Val tt,
     (Some (os_flush (os_print (render_line (line_of k cfs st') ++ newline) o)),
      st')).
Proof.
  intros Hb st'.
  assert (Hv : id_of (this k) st' = fst (get_id (this k) st)).
  { apply id_of_known. apply lookup_id_get_id_same. }
  unfold emit_line, render_line, line_of. rewrite Hb, Hv. subst st'.
  cbn [negb ll_name ll_id ll_unregistered]. unfold cr.
  mrun. rewrite run_flush, os_print_print, str_app_nil_r.
  now rewrite !str_app_assoc.
Qed.

Lemma emit_line_unregistered (k : Klass) (s : string) (path : string)
  (o : outputStream) (st : VM) :
  is_builtin_loader (class_loader_data k) = false ->
  (ASSERT = true -> java_super k <> nullptr) ->
  let st' := snd (get_id (java_super k) (snd (get_id (this k) st))) in
  (forall p, In p (local_interfaces k) -> has_id p st' = true) ->
  str_offset s (if WINDOWS then 6 else 5)%nat = Some path ->
  let cfs := Some {| source := Some s |} in
  emit_line k cfs (Some o, st) =
    (Val tt,
     (Some (os_flush (os_print (render_line (line_of k cfs st') ++ newline) o)),
      st')).
Proof.
  intros Hb Ha st' Hi Hp cfs.
  assert (Hv : id_of (this k) st' = fst (get_id (this k) st)).
  { apply id_of_known, lookup_id_get_id_kept, lookup_id_get_id_same. }
  assert (Hsv : id_of (java_super k) st' =
                fst (get_id (java_super k) (snd (get_id (this k) st)))).
  { apply id_of_known, lookup_id_get_id_same. }
  assert (Hassert : ASSERT && negb (negb (java_super k =? nullptr)%N) = false).
  { destruct ASSERT; simpl; auto.
    rewrite Bool.negb_involutive. apply N.eqb_neq. now apply Ha. }
  unfold emit_line, render_line, line_of, source_path. subst cfs.
  rewrite Hb. cbn [negb ll_name ll_id ll_unregistered source].
  rewrite Hp, Hv, Hsv.
  unfold assert_that, cr. rewrite Hassert. cbn [default from_option id].
  mrun. fold st'.
  destruct (local_interfaces k) as [|p l] eqn:Hl.
  - mrun. rewrite run_flush, !os_print_print. cbn [map render_interfaces].
    rewrite str_app_nil_l. now rewrite !str_app_assoc.
  - mrun.
    erewrite bind_val by (apply print_interface_ids_known; exact Hi).
    mrun. rewrite run_flush, !os_print_print. unfold render_interfaces.
    cbn [map]. now rewrite !str_app_assoc.
Qed.

End Emitter.

Section WriteToStream.
Context {E : Externals}.

(** ** write_to_stream as a whole *)

Lemma after_registration_frame (k : Klass) (cfs : option ClassFileStream)
  (st : VM) :
  let st' := after_registration k cfs st in
  _id_table st' = _id_table st /\
  _total_ids st' = _total_ids st /\
  _classlist_file st' = _classlist_file st /\
  DumpLoadedClassList st' = DumpLoadedClassList st /\
  cds_warnings st' = cds_warnings st.
Proof.
  unfold after_registration.
  destruct (first_rejection _ k cfs st);
    [|destruct (is_builtin_loader (class_loader_data k))];
    simpl; auto 10.
Qed.

Lemma lookup_id_after_registration (k : Klass) (cfs : option ClassFileStream)
  (p : N) (st : VM) :
  lookup_id p (after_registration k cfs st) = lookup_id p st.
Proof.
  unfold lookup_id.
  now rewrite (proj1 (after_registration_frame k cfs st)).
Qed.

Lemma has_id_after_registration (k : Klass) (cfs : option ClassFileStream)
  (p : N) (st : VM) :
  has_id p (after_registration k cfs st) = has_id p st.
Proof.
  unfold has_id.
  now rewrite (proj1 (after_registration_frame k cfs st)).
Qed.

Lemma write_to_stream_unfold (k : Klass) (cfs : option ClassFileStream)
  (s : option outputStream) (st : VM) :
  write_to_stream k cfs (s, st) =
    match first_rejection code_order k cfs st with
    | Some r => (Return r, (s, after_registration k cfs st))
    | None => emit_line k cfs (s, after_registration k cfs st)
    end.
Proof.
  unfold write_to_stream, bind. rewrite filter_and_gate_spec.
  now destruct (first_rejection code_order k cfs st).
Qed.

(** What an event that passed every check is known to satisfy. *)
Lemma accepted_inv (k : Klass) (cfs : option ClassFileStream) (st : VM) :
  first_rejection code_order k cfs st = None ->
  (is_builtin_loader (class_loader_data k) = false ->
   is_shared k = false /\
   fst (add_unregistered_class k (world st)) = true /\
   exists s, cfs = Some {| source := Some s |} /\
             strncmp s "file:" 5 = 0) /\
  (java_super k = nullptr \/ has_id (java_super k) st = true) /\
  (forall p, In p (local_interfaces k) -> has_id p st = true) /\
  is_hidden k = false /\
  is_patched (module k) = false.
Proof.
  unfold code_order, first_rejection, rejects.
  destruct (is_builtin_loader (class_loader_data k)); simpl.
  all: destruct (is_shared k); simpl; try discriminate.
  all: destruct cfs as [[[src|]]|]; simpl; try discriminate.
  all: try (destruct (strncmp src "file:" 5 =? 0)%Z eqn:Hf;
            simpl; try discriminate).
  all: try (destruct (fst (add_unregistered_class k (world st)));
            simpl; try discriminate).
  all: try (destruct (strcmp src species_marker =? 0)%Z;
            simpl; try discriminate).
  all: destruct (java_super k =? nullptr)%N eqn:Hn; simpl.
  all: try (destruct (has_id (java_super k) st) eqn:Hs;
            simpl; try discriminate).
  all: destruct (forallb _ (local_interfaces k)) eqn:Hall;
    simpl; try discriminate.
  all: destruct (is_hidden k); simpl; try discriminate.
  all: destruct (is_patched (module k)); simpl; try discriminate.
  all: intros _.
  all: repeat split; try discriminate; auto.
  all: try (left; now apply N.eqb_eq).
  all: try (intros p Hp; rewrite forallb_forall in Hall; now apply Hall).
  all: try (intros _; repeat split; auto; eexists; split;
            [reflexivity | now apply Z.eqb_eq]).
  all: eexists; split; [reflexivity | now apply Z.eqb_eq].
Qed.

Lemma emit_line_val_inv (k : Klass) (cfs : option ClassFileStream)
  (s : option outputStream) (st : VM) (f' : frame) :
  emit_line k cfs (s, st) = (Val tt, f') ->
  (exists o, s = Some o) /\
  (is_builtin_loader (class_loader_data k) = false ->
   (ASSERT = true -> java_super k <> nullptr) /\
   exists src path,
     cfs = Some {| source := Some src |} /\
     str_offset src (if WINDOWS then 6 else 5)%nat = Some path).
Proof.
  unfold emit_line. rewrite bind_call.
  destruct s as [o|]; [|discriminate].
  intros H. split; [eauto|]. intros Hb. revert H. rewrite Hb.
  cbn [negb]. mrun. unfold assert_that.
  destruct (ASSERT && negb (negb (java_super k =? nullptr)%N)) eqn:Ha;
    mrun; [discriminate|].
  intros H. split.
  - intros HA Hn. rewrite HA, Hn in Ha. discriminate.
  - apply bind_val_inv in H. destruct H as ([] & f1 & _ & H).
    destruct cfs as [[[src|]]|]; cbn [source] in H; try discriminate.
    destruct (str_offset src _) as [path|] eqn:Hp; try discriminate.
    eauto.
Qed.

Lemma has_id_get_id_kept (k p : N) (st : VM) :
  has_id p st = true -> has_id p (snd (get_id k st)) = true.
Proof.
  rewrite !has_id_lookup. intros [v Hv]. exists v.
  now apply lookup_id_get_id_kept.
Qed.

Lemma get_id_of_known (k : N) (st : VM) :
  has_id k st = true -> snd (get_id k st) = st.
Proof.
  rewrite has_id_lookup. intros [v Hv].
  now rewrite (get_id_known _ _ _ Hv).
Qed.

(** The state in which an accepted event leaves the registry. *)
Lemma write_to_stream_accepts (k : Klass) (cfs : option ClassFileStream)
  (o : outputStream) (st : VM) :
  first_rejection code_order k cfs st = None ->
  has_super_if_unregistered k ->
  (is_builtin_loader (class_loader_data k) = false ->
   forall src, cfs = Some {| source := Some src |} ->
               str_offset src (if WINDOWS then 6 else 5)%nat <> None) ->
  let st' := snd (get_id (this k) (after_registration k cfs st)) in
  write_to_stream k cfs (Some o, st) =
    (Val tt,
     (Some (os_flush (os_print (render_line (line_of k cfs st') ++ newline) o)),
      st')).
Proof.
  intros Hacc Hwf Hpath st'. rewrite write_to_stream_unfold, Hacc.
  destruct (accepted_inv _ _ _ Hacc) as (Hunreg & Hsuper & Hintf & _ & _).
  destruct (is_builtin_loader (class_loader_data k)) eqn:Hb.
  - now apply emit_line_builtin.
  - destruct (Hunreg eq_refl) as (_ & _ & src & -> & _).
    destruct (str_offset src (if WINDOWS then 6 else 5)%nat) as [path|] eqn:Hp;
      [|now elim (Hpath eq_refl src eq_refl)].
    assert (Hs : has_id (java_super k) st' = true).
    { destruct Hsuper as [Hn|Hs]; [now elim (Hwf Hb)|].
      apply has_id_get_id_kept. now rewrite has_id_after_registration. }
    pose proof (get_id_of_known _ _ Hs) as Hst'.
    rewrite (emit_line_unregistered k src path o _ Hb); fold st'.
    + now rewrite Hst'.
    + intros _. now apply Hwf.
    + rewrite Hst'. intros p Hin.
      apply has_id_get_id_kept. rewrite has_id_after_registration. auto.
    + exact Hp.
Qed.

Lemma write_to_stream_val_inv (k : Klass) (cfs : option ClassFileStream)
  (s s' : option outputStream) (st st' : VM) :
  has_super_if_unregistered k ->
  write_to_stream k cfs (s, st) = (Val tt, (s', st')) ->
  first_rejection code_order k cfs st = None /\
  st' = snd (get_id (this k) (after_registration k cfs st)) /\
  exists o,
    s = Some o /\
    s' = Some (os_flush
                 (os_print (render_line (line_of k cfs st') ++ newline) o)).
Proof.
  intros Hwf H. pose proof H as H0. rewrite write_to_stream_unfold in H0.
  destruct (first_rejection code_order k cfs st) eqn:Hacc; [discriminate|].
  apply emit_line_val_inv in H0. destruct H0 as ([o ->] & Hunreg).
  rewrite write_to_stream_accepts in H; auto.
  - inversion H. subst. eauto.
  - intros Hb src ->. destruct (Hunreg Hb) as (_ & src' & path & Heq & Hp).
    inversion Heq. subst. now rewrite Hp.
Qed.

Lemma write_to_stream_rejects (k : Klass) (cfs : option ClassFileStream)
  (s : option outputStream) (st : VM) (r : return_point) :
  first_rejection code_order k cfs st = Some r ->
  write_to_stream k cfs (s, st) = (Return r, (s, after_registration k cfs st)).
Proof. intros H. now rewrite write_to_stream_unfold, H. Qed.

Lemma never_exits_bind {A B} (e : return_point + fault) (m : M A)
  (k : A -> M B) :
  never_exits e m -> (forall a, never_exits e (k a)) ->
  never_exits e (bind m k).
Proof.
  intros Hm Hk f. unfold bind. specialize (Hm f).
  destruct (m f) as [[a|r'|x] f1]; simpl in *; auto. apply Hk.
Qed.

Lemma never_exits_print (e : return_point + fault) (txt : string) :
  e <> inr NullPointer -> never_exits e (print txt).
Proof. intros He [[o|] st]; simpl; congruence. Qed.

Lemma never_exits_flush (e : return_point + fault) :
  e <> inr NullPointer -> never_exits e flush.
Proof. intros He [[o|] st]; simpl; congruence. Qed.

Lemma never_exits_call {A} (e : return_point + fault) (op : VM -> A * VM) :
  never_exits e (call op).
Proof. intros [s st]. unfold call. simpl. now destruct (op st). Qed.

Lemma never_exits_pure {A} (e : return_point + fault) (a : A) :
  never_exits e (pure a).
Proof. intros f. discriminate. Qed.

Lemma never_exits_crash {A} (e : return_point + fault) (x : fault) :
  e <> inr x -> never_exits e (@crash _ A x).
Proof. intros He f. simpl. congruence. Qed.

Lemma never_exits_print_interface_ids (e : return_point + fault)
  (l : list N) :
  e <> inr NullPointer -> never_exits e (print_interface_ids l).
Proof.
  intros He. induction l as [|p l IH]; simpl.
  - apply never_exits_pure.
  - apply never_exits_bind; [apply never_exits_call|intros id].
    apply never_exits_bind; [now apply never_exits_print|intros _; exact IH].
Qed.

Ltac never_exits_step :=
  first
    [ apply never_exits_print; discriminate
    | apply never_exits_flush; discriminate
    | apply never_exits_call
    | apply never_exits_pure
    | apply never_exits_crash; discriminate
    | apply never_exits_print_interface_ids; discriminate
    | apply never_exits_bind; [|intros ?]
    | match goal with
      | |- never_exits _ (if ?c then _ else _) => destruct c
      | |- never_exits _ (match ?c with _ => _ end) => destruct c
      end ].

Lemma never_returns_emit_line (k : Klass) (cfs : option ClassFileStream)
  (r : return_point) :
  never_exits (inl r) (emit_line k cfs).
Proof. unfold emit_line, assert_that, cr. repeat never_exits_step. Qed.

(** The assertion of line 161 holds on a class that satisfies the class
    invariant. *)
Lemma assertion_holds_emit_line (k : Klass) (cfs : option ClassFileStream) :
  has_super_if_unregistered k ->
  never_exits (inr (AssertionFailure "must be")) (emit_line k cfs).
Proof.
  intros Hwf. unfold emit_line, assert_that, cr.
  destruct (is_builtin_loader (class_loader_data k)) eqn:Hb; cbn [negb].
  - repeat never_exits_step.
  - assert (Hn : negb (negb (java_super k =? nullptr)%N) = false).
    { rewrite Bool.negb_involutive. apply N.eqb_neq. now apply Hwf. }
    rewrite Hn, Bool.andb_false_r. repeat never_exits_step.
Qed.

(** The event is rejected exactly where its first failing check says. *)
Lemma write_to_stream_return_iff (k : Klass) (cfs : option ClassFileStream)
  (s : option outputStream) (st : VM) (r : return_point) :
  fst (write_to_stream k cfs (s, st)) = Return r <->
  first_rejection code_order k cfs st = Some r.
Proof.
  rewrite write_to_stream_unfold.
  destruct (first_rejection code_order k cfs st) as [r'|]; simpl.
  - split; intros H; inversion H; reflexivity.
  - split; [|discriminate]. intros H.
    destruct (emit_line k cfs (s, after_registration k cfs st))
      as [out f'] eqn:He.
    simpl in H. subst out.
    pose proof (never_returns_emit_line k cfs r
                  (s, after_registration k cfs st)) as Hn.
    rewrite He in Hn. now elim Hn.
Qed.

End WriteToStream.

Section RegistryClaims.
Context {E : Externals}.

(** ** Claims about the registry *)

(** C5: [get_id] is idempotent on a mapped identity: a second call
    returns the id of the first and leaves the state, the counter
    included, as the first call left it; a call on a mapped identity
    changes nothing; only the call that creates the mapping advances
    the counter, by one. *)
Theorem get_id_idempotent (k : N) (st : VM) :
  get_id k (snd (get_id k st)) = (fst (get_id k st), snd (get_id k st)) /\
  (forall v, lookup_id k st = Some v -> get_id k st = (v, st)) /\
  (has_id k st = false ->
   fst (get_id k st) = _total_ids st /\
   _total_ids (snd (get_id k st)) = int_wrap (_total_ids st + 1) /\
   _total_ids (snd (get_id k (snd (get_id k st)))) =
     _total_ids (snd (get_id k st))).
Proof.
  assert (H2 : get_id k (snd (get_id k st)) =
               (fst (get_id k st), snd (get_id k st))).
  { apply get_id_known, lookup_id_get_id_same. }
  split; [exact H2|]. split; [apply get_id_known|].
  intros Hno. apply has_id_false_lookup in Hno.
  rewrite H2. rewrite (get_id_fresh _ _ Hno). simpl. auto.
Qed.

Lemma consecutive_from_S (n : Z) (m : nat) :
  consecutive_from n (S m) = n :: consecutive_from (n + 1) m.
Proof.
  unfold consecutive_from. cbn [seq map]. f_equal; [lia|].
  rewrite <- seq_shift, map_map. apply map_ext. intros i. lia.
Qed.

Lemma registry_ok_get_id (k : N) (st : VM) :
  registry_ok st -> _total_ids st < INT_MAX ->
  registry_ok (snd (get_id k st)) /\
  (has_id k st = true -> _total_ids (snd (get_id k st)) = _total_ids st) /\
  (has_id k st = false ->
   _total_ids (snd (get_id k st)) = _total_ids st + 1 /\
   fst (get_id k st) = _total_ids st).
Proof.
  intros (Hpos & Hlt & Hinj) Hmax.
  destruct (lookup_id k st) as [v|] eqn:Hk.
  - rewrite (get_id_known _ _ _ Hk). simpl.
    assert (Hh : has_id k st = true) by (apply has_id_lookup; eauto).
    rewrite Hh. split; [exact (conj Hpos (conj Hlt Hinj))|].
    split; [reflexivity|discriminate].
  - assert (Hh : has_id k st = false) by now apply has_id_false_lookup.
    assert (Hw : int_wrap (_total_ids st + 1) = _total_ids st + 1).
    { apply int_wrap_small. unfold INT_MIN. lia. }
    pose proof (fun p => lookup_id_get_id k p st) as Hl.
    rewrite (get_id_fresh _ _ Hk) in *. cbn [fst snd] in *.
    rewrite Hh. cbn [_total_ids set_id_table set_total_ids].
    rewrite Hw in *.
    split; [|split; [discriminate|auto]].
    split; [cbn [_total_ids set_id_table set_total_ids]; lia|].
    cbn [_total_ids set_id_table set_total_ids]. split.
    + intros p v. rewrite Hl. destruct (decide (k = p)).
      * intros [= <-]. lia.
      * intros Hp. apply Hlt in Hp. lia.
    + intros p1 p2 v. rewrite !Hl.
      destruct (decide (k = p1)), (decide (k = p2)); subst; auto.
      * intros [= <-] Hp. apply Hlt in Hp. lia.
      * intros Hp [= <-]. apply Hlt in Hp. lia.
      * apply Hinj.
Qed.

Lemma registry_ok_unloading (k : N) (st : VM) :
  registry_ok st ->
  registry_ok (handle_class_unloading k st) /\
  _total_ids (handle_class_unloading k st) = _total_ids st.
Proof.
  intros (Hpos & Hlt & Hinj).
  assert (Ht : _total_ids (handle_class_unloading k st) = _total_ids st).
  { unfold handle_class_unloading. now destruct (_id_table st). }
  split; [|exact Ht]. unfold registry_ok. rewrite Ht.
  split; [exact Hpos|]. split.
  - intros p v. rewrite lookup_id_unloading.
    destruct (decide (k = p)); [discriminate|apply Hlt].
  - intros p1 p2 v. rewrite !lookup_id_unloading.
    destruct (decide (k = p1)); [discriminate|].
    destruct (decide (k = p2)); [discriminate|apply Hinj].
Qed.

Lemma apply_op_ok (op : registry_op) (st : VM) :
  registry_ok st -> _total_ids st < INT_MAX ->
  registry_ok (apply_op op st) /\
  assigned op st = consecutive_from (_total_ids st) (length (assigned op st)) /\
  _total_ids (apply_op op st) =
    _total_ids st + Z.of_nat (length (assigned op st)).
Proof.
  intros Hok Hmax. destruct op as [k|k]; simpl.
  - destruct (registry_ok_get_id k st Hok Hmax) as (Hok' & Hold & Hnew).
    split; [exact Hok'|].
    destruct (has_id k st); simpl.
    + rewrite Hold by reflexivity. split; [reflexivity|lia].
    + destruct (Hnew eq_refl) as [Ht Hv]. rewrite Ht, Hv.
      unfold consecutive_from. simpl. split; [f_equal; lia|lia].
  - destruct (registry_ok_unloading k st Hok) as [Hok' Ht].
    split; [exact Hok'|]. rewrite Ht. split; [reflexivity|lia].
Qed.

Lemma assigned_length (op : registry_op) (st : VM) :
  (length (assigned op st) <= 1)%nat.
Proof.
  destruct op as [k|k]; simpl; [destruct (has_id k st)|]; simpl; lia.
Qed.

Lemma apply_ops_ok (ops : list registry_op) (st : VM) :
  registry_ok st ->
  _total_ids st + Z.of_nat (length ops) <= INT_MAX ->
  registry_ok (apply_ops ops st) /\
  assigned_ids ops st =
    consecutive_from (_total_ids st) (length (assigned_ids ops st)) /\
  _total_ids (apply_ops ops st) =
    _total_ids st + Z.of_nat (length (assigned_ids ops st)) /\
  (length (assigned_ids ops st) <= length ops)%nat.
Proof.
  revert st. induction ops as [|op ops IH]; intros st Hok Hmax.
  - simpl. split; [exact Hok|]. split; [reflexivity|]. split; lia.
  - cbn [apply_ops assigned_ids]. cbn [length] in Hmax.
    destruct (apply_op_ok op st Hok) as (Hok1 & Ha & Ht); [lia|].
    pose proof (assigned_length op st) as Hlen.
    destruct (IH (apply_op op st) Hok1) as (Hok2 & Has & Hts & Hl); [lia|].
    split; [exact Hok2|]. rewrite length_app.
    split; [|split; [lia|cbn [length]; lia]].
    rewrite Has at 1. rewrite Ht.
    destruct (assigned op st) as [|v [|v' rest]] eqn:Hop;
      cbn [length] in *; try lia.
    + simpl. f_equal. lia.
    + cbn [app Nat.add]. rewrite consecutive_from_S.
      unfold consecutive_from in Ha. simpl in Ha. injection Ha as Hv.
      f_equal; lia.
Qed.

Lemma in_consecutive_from (n v : Z) (m : nat) :
  In v (consecutive_from n m) <-> n <= v < n + Z.of_nat m.
Proof.
  unfold consecutive_from. rewrite in_map_iff. split.
  - intros (i & <- & Hi). apply in_seq in Hi. lia.
  - intros Hv. exists (Z.to_nat (v - n)). split; [lia|].
    apply in_seq. lia.
Qed.

Lemma registry_ok_fresh (st : VM) :
  _id_table st = None -> _total_ids st = 0 -> registry_ok st.
Proof.
  intros Ht Hn. unfold registry_ok, lookup_id. rewrite Ht, Hn.
  split; [lia|]. split; intros; discriminate.
Qed.

(** C3: from the initial registry, over any sequence of [get_id] and
    removal operations short enough for the [int] counter, the ids that
    [get_id] assigns are 0, 1, 2, ... in this order; the counter is the
    number of ids assigned so far; every live id was assigned, and no
    two classes share a live id; a further operation never lowers the
    counter, a removal leaves it as it is, an id newly assigned is the
    counter and was neither assigned before nor is it live, and a
    mapping keeps its id until it is removed. *)
Theorem ids_increase_without_reuse (st0 : VM) (ops : list registry_op) :
  _id_table st0 = None -> _total_ids st0 = 0 ->
  Z.of_nat (length ops) < INT_MAX ->
  let st := apply_ops ops st0 in
  let ids := assigned_ids ops st0 in
  ids = consecutive_from 0 (length ids) /\
  _total_ids st = Z.of_nat (length ids) /\
  (forall k v, lookup_id k st = Some v -> In v ids) /\
  (forall k1 k2 v,
      lookup_id k1 st = Some v -> lookup_id k2 st = Some v -> k1 = k2) /\
  (forall op,
      let st' := apply_op op st in
      _total_ids st <= _total_ids st' /\
      (forall v, In v (assigned op st) ->
                 v = _total_ids st /\ ~ In v ids /\
                 _total_ids st' = v + 1 /\
                 forall k, lookup_id k st <> Some v) /\
      (forall k v, lookup_id k st = Some v -> op <> Remove k ->
                   lookup_id k st' = Some v) /\
      (forall k, op = Remove k ->
                 _total_ids st' = _total_ids st /\ lookup_id k st' = None)).
Proof.
  intros Ht Hn Hlen st ids.
  destruct (apply_ops_ok ops st0 (registry_ok_fresh _ Ht Hn))
    as (Hok & Hids & Htot & Hle); [lia|].
  fold st in Hok, Htot. fold ids in Hids, Htot, Hle.
  rewrite Hn in Hids, Htot. rewrite Z.add_0_l in Htot.
  destruct Hok as (Hpos & Hlt & Hinj).
  split; [exact Hids|]. split; [exact Htot|]. split; [|split; [exact Hinj|]].
  - intros k v Hk. rewrite Hids. apply in_consecutive_from.
    apply Hlt in Hk. lia.
  - intros op st'.
    assert (Hmax : _total_ids st < INT_MAX) by lia.
    destruct (apply_op_ok op st (conj Hpos (conj Hlt Hinj)) Hmax)
      as (_ & Ha & Ht').
    fold st' in Ht'. split; [lia|]. split; [|split].
    + intros v Hv. pose proof (assigned_length op st) as Hl1.
      rewrite Ha in Hv. apply in_consecutive_from in Hv.
      assert (Hveq : v = _total_ids st) by lia.
      assert (Hone : length (assigned op st) = 1%nat) by lia.
      split; [exact Hveq|]. split; [|split].
      * rewrite Hids. rewrite in_consecutive_from. lia.
      * lia.
      * intros k Hk. apply Hlt in Hk. lia.
    + intros k v Hk Hne. unfold st'. destruct op as [p|p]; cbn [apply_op].
      * now apply lookup_id_get_id_kept.
      * rewrite lookup_id_unloading.
        destruct (decide (p = k)); [subst; congruence|exact Hk].
    + intros k ->. unfold st'. cbn [apply_op].
      split; [apply registry_ok_unloading; exact (conj Hpos (conj Hlt Hinj))|].
      rewrite lookup_id_unloading. now destruct (decide (k = k)).
Qed.

End RegistryClaims.

Section Write.
Context {E : Externals}.

(** ** write, case by case *)

Lemma write_to_stream_return_inv (k : Klass) (cfs : option ClassFileStream)
  (s s' : option outputStream) (st st' : VM) (r : return_point) :
  write_to_stream k cfs (s, st) = (Return r, (s', st')) ->
  first_rejection code_order k cfs st = Some r /\
  s' = s /\ st' = after_registration k cfs st.
Proof.
  intros H. pose proof H as H0. rewrite write_to_stream_unfold in H0.
  destruct (first_rejection code_order k cfs st) as [r'|] eqn:Hr.
  - inversion H0. subst. repeat split.
  - pose proof (never_returns_emit_line k cfs r
                  (s, after_registration k cfs st)) as Hn.
    rewrite H0 in Hn. now elim Hn.
Qed.

Lemma get_id_congruence (p : N) (st1 st2 : VM) :
  _id_table st1 = _id_table st2 -> _total_ids st1 = _total_ids st2 ->
  fst (get_id p st1) = fst (get_id p st2) /\
  _id_table (snd (get_id p st1)) = _id_table (snd (get_id p st2)) /\
  _total_ids (snd (get_id p st1)) = _total_ids (snd (get_id p st2)).
Proof.
  destruct st1 as [d1 f1 t1 n1 c1 w1], st2 as [d2 f2 t2 n2 c2 w2].
  simpl. intros -> ->. unfold get_id. simpl.
  destruct t2 as [t|]; simpl.
  - destruct (t !! p); simpl; auto.
  - rewrite lookup_empty. simpl. auto.
Qed.

Lemma write_val_inv (k : Klass) (cfs : option ClassFileStream) (st st1 : VM) :
  has_super_if_unregistered k ->
  write k cfs st = (Val tt, st1) ->
  first_rejection code_order k cfs st = None /\
  _id_table st1 = _id_table (snd (get_id (this k) st)) /\
  _total_ids st1 = _total_ids (snd (get_id (this k) st)) /\
  DumpLoadedClassList st1 = DumpLoadedClassList st /\
  cds_warnings st1 = cds_warnings st /\
  exists o,
    _classlist_file st = Some o /\
    _classlist_file st1 =
      Some (os_flush (os_print (render_line (line_of k cfs st1) ++ newline) o)).
Proof.
  intros Hwf. unfold write.
  destruct (ASSERT && negb (is_enabled st)); [discriminate|].
  destruct (negb (has_jrt_entry (world st))); [discriminate|].
  destruct (write_to_stream k cfs (_classlist_file st, st))
    as [out [s' st']] eqn:Hw.
  intros H. inversion H. subst out st1. clear H.
  destruct (write_to_stream_val_inv _ _ _ _ _ _ Hwf Hw)
    as (Hacc & Hst' & o & Ho & Hs').
  destruct (after_registration_frame k cfs st) as (Ht & Hn & _ & Hd & Hc).
  destruct (get_id_congruence (this k) _ _ Ht Hn) as (_ & Ht' & Hn').
  destruct (get_id_frame (this k) (after_registration k cfs st))
    as (Hd' & _ & Hc' & _).
  split; [exact Hacc|]. cbn [_id_table _total_ids set_classlist_file
                             DumpLoadedClassList cds_warnings _classlist_file].
  rewrite Hst'. repeat split; try assumption; try congruence.
  exists o. split; [exact Ho|]. rewrite Hs', Hst'.
  repeat f_equal.
Qed.

Lemma write_return_inv (k : Klass) (cfs : option ClassFileStream)
  (st st1 : VM) (r : return_point) :
  write k cfs st = (Return r, st1) ->
  _id_table st1 = _id_table st /\
  _total_ids st1 = _total_ids st /\
  _classlist_file st1 = _classlist_file st.
Proof.
  unfold write.
  destruct (ASSERT && negb (is_enabled st)); [discriminate|].
  destruct (negb (has_jrt_entry (world st))).
  - intros H. inversion H. subst. simpl. auto.
  - destruct (write_to_stream k cfs (_classlist_file st, st))
      as [out [s' st']] eqn:Hw.
    intros H. inversion H. subst out st1. clear H.
    destruct (write_to_stream_return_inv _ _ _ _ _ _ _ Hw) as (_ & -> & ->).
    destruct (after_registration_frame k cfs st) as (Ht & Hn & Hf & _).
    simpl. auto.
Qed.

End Write.

Section Runs.
Context {E : Externals}.

(** ** Runs of events *)

Lemma topological_snoc (ls : list LogLine) (l : LogLine) :
  topological ls ->
  (forall id, In id (references l) -> exists l', In l' ls /\ ll_id l' = id) ->
  topological (ls ++ [l]).
Proof.
  intros Hls Hl i x id Hi Hid.
  destruct (decide (i < length ls)%nat) as [Hlt|Hge].
  - rewrite lookup_app_l in Hi by exact Hlt.
    destruct (Hls i x id Hi Hid) as (j & l' & Hj & Hl' & Heq).
    exists j, l'. split; [exact Hj|]. split; [|exact Heq].
    rewrite lookup_app_l by lia. exact Hl'.
  - rewrite lookup_app_r in Hi by lia.
    destruct (i - length ls)%nat as [|n] eqn:Hn; [|now destruct n].
    simpl in Hi. injection Hi as <-.
    destruct (Hl id Hid) as (l' & Hin & Heq).
    apply list_elem_of_In, list_elem_of_lookup in Hin.
    destruct Hin as [j Hj]. exists j, l'.
    pose proof (lookup_lt_Some _ _ _ Hj).
    split; [lia|]. split; [|exact Heq].
    rewrite lookup_app_l by lia. exact Hj.
Qed.

Lemma emitted_cases (e : event) (st : VM) :
  match step e st with
  | (Val _, st1) =>
      match e with
      | LoadEvent k cfs => emitted e st = [line_of k cfs st1]
      | UnloadEvent _ => emitted e st = []
      end
  | _ => emitted e st = []
  end.
Proof.
  destruct e as [k cfs|p]; simpl; [|reflexivity].
  now destruct (write k cfs st) as [[[]|r|x] st1].
Qed.

(** One step keeps every live id in the log, and what it adds to the
    log refers to earlier records only. *)
Lemma step_logged (e : event) (st st1 : VM) (out : outcome unit)
  (ls : list LogLine) :
  well_formed e ->
  step e st = (out, st1) ->
  (forall x, out <> Fault x) ->
  logged st ls ->
  logged st1 (ls ++ emitted e st) /\
  forall l id, In l (emitted e st) -> In id (references l) ->
               exists l', In l' ls /\ ll_id l' = id.
Proof.
  intros Hwf Hstep Hout Hlog.
  pose proof (emitted_cases e st) as Hem. rewrite Hstep in Hem.
  destruct e as [k cfs|p]; simpl in Hstep, Hwf.
  - destruct out as [[]|r|x]; [| |now elim (Hout x)].
    + rewrite Hem.
      destruct (write_val_inv _ _ _ _ Hwf Hstep) as (Hacc & Ht & _).
      destruct (accepted_inv _ _ _ Hacc) as (_ & Hsuper & Hintf & _).
      assert (Hl : forall q, lookup_id q st1 =
                             lookup_id q (snd (get_id (this k) st))).
      { intros q. unfold lookup_id. now rewrite Ht. }
      assert (Hkept : forall q, has_id q st = true ->
                exists v, lookup_id q st = Some v /\ id_of q st1 = v).
      { intros q Hq. apply has_id_lookup in Hq. destruct Hq as [v Hv].
        exists v. split; [exact Hv|]. apply id_of_known. rewrite Hl.
        now apply lookup_id_get_id_kept. }
      split.
      * intros q v Hq. rewrite Hl, lookup_id_get_id in Hq.
        destruct (decide (this k = q)) as [<-|Hne].
        -- exists (line_of k cfs st1). split; [apply in_or_app; right; now left|].
           simpl. apply id_of_known. rewrite Hl, lookup_id_get_id_same.
           exact Hq.
        -- destruct (Hlog q v Hq) as (l & Hin & Heq).
           exists l. split; [apply in_or_app; now left|exact Heq].
      * intros l id [<-|[]]. unfold references, line_of. simpl.
        destruct (is_builtin_loader (class_loader_data k)) eqn:Hb; [intros []|].
        intros [<-|Hin].
        -- destruct Hsuper as [Hn|Hs]; [now elim (Hwf Hb)|].
           destruct (Hkept _ Hs) as (v & Hv & ->). eauto.
        -- apply in_map_iff in Hin. destruct Hin as (q & <- & Hq).
           destruct (Hkept _ (Hintf q Hq)) as (v & Hv & ->). eauto.
    + rewrite Hem, app_nil_r. split; [|intros l id []].
      destruct (write_return_inv _ _ _ _ _ Hstep) as (Ht & _).
      intros q v Hq. apply (Hlog q v). unfold lookup_id in *.
      now rewrite <- Ht.
  - injection Hstep as <- <-. simpl. rewrite app_nil_r.
    split; [|intros l id []].
    intros q v. rewrite lookup_id_unloading.
    destruct (decide (p = q)); [discriminate|apply (Hlog q v)].
Qed.

Lemma run_lines_topological_from (evs : list event) (st : VM)
  (ls : list LogLine) :
  Forall well_formed evs -> logged st ls -> topological ls ->
  topological (ls ++ run_lines evs st).
Proof.
  revert st ls. induction evs as [|e evs IH]; intros st ls Hwf Hlog Htop.
  - simpl. now rewrite app_nil_r.
  - inversion Hwf as [|? ? He Hrest]. subst. cbn [run_lines].
    pose proof (emitted_cases e st) as Hem.
    destruct (step e st) as [out st1] eqn:Hstep.
    assert (Hone : (forall x, out <> Fault x) ->
              logged st1 (ls ++ emitted e st) /\
              topological (ls ++ emitted e st)).
    { intros Hout.
      destruct (step_logged e st st1 out ls He Hstep) as [Hlog1 Hrefs]; auto.
      split; [exact Hlog1|].
      destruct (emitted e st) as [|l [|l' rest]] eqn:Hl.
      - now rewrite app_nil_r.
      - apply topological_snoc; [exact Htop|].
        intros id Hid. apply (Hrefs l id); [now left|exact Hid].
      - destruct out as [[]|r|x]; try discriminate.
        destruct e; discriminate. }
    destruct out as [[]|r|x].
    + rewrite app_assoc. apply IH; auto; apply Hone; discriminate.
    + rewrite app_assoc. apply IH; auto; apply Hone; discriminate.
    + rewrite Hem. simpl. now rewrite app_nil_r.
Qed.

Lemma render_log_app (a b : list LogLine) :
  render_log (a ++ b) = render_log a ++ render_log b.
Proof.
  induction a as [|l a IH]; simpl; [reflexivity|].
  now rewrite IH, !str_app_assoc.
Qed.

Lemma run_text (evs : list event) (st st' : VM) :
  Forall well_formed evs ->
  run evs st = (Val tt, st') ->
  file_text st' = file_text st ++ render_log (run_lines evs st).
Proof.
  revert st. induction evs as [|e evs IH]; intros st Hwf Hrun.
  - simpl in *. injection Hrun as <-. now rewrite str_app_nil_r.
  - inversion Hwf as [|? ? He Hrest]. subst. cbn [run run_lines] in *.
    pose proof (emitted_cases e st) as Hem.
    destruct (step e st) as [out st1] eqn:Hstep.
    rewrite render_log_app.
    destruct out as [[]|r|x]; [| |discriminate].
    + rewrite (IH _ Hrest Hrun), <- str_app_assoc. f_equal.
      destruct e as [k cfs|p]; simpl in Hstep, He.
      * rewrite Hem.
        destruct (write_val_inv _ _ _ _ He Hstep)
          as (_ & _ & _ & _ & _ & o & Ho & Ho1).
        unfold file_text. rewrite Ho, Ho1. unfold os_text. simpl.
        now rewrite !str_app_nil_r, !str_app_assoc.
      * injection Hstep as <-. rewrite Hem. simpl.
        rewrite str_app_nil_r. unfold file_text, handle_class_unloading.
        now destruct (_id_table st).
    + rewrite (IH _ Hrest Hrun), <- str_app_assoc. f_equal.
      rewrite Hem. simpl. rewrite str_app_nil_r.
      destruct e as [k cfs|p]; simpl in Hstep; [|discriminate].
      destruct (write_return_inv _ _ _ _ _ Hstep) as (_ & _ & Hf).
      unfold file_text. now rewrite Hf.
Qed.

(** C1: over any sequence of load and unload events on classes that
    satisfy the class invariant, from the state [init] leaves, every id
    that a record of the log refers to (supertype or interface) is the
    id of a record strictly earlier in the log; and the text of the file
    is the header followed by these records, in this order. *)
Theorem log_is_topological (flag : string) (w : World) (evs : list event) :
  Forall well_formed evs ->
  let st0 := init (boot (Some flag) w) in
  topological (run_lines evs st0) /\
  forall st, run evs st0 = (Val tt, st) ->
             file_text st = header ++ render_log (run_lines evs st0).
Proof.
  intros Hwf st0. split.
  - change (topological ([] ++ run_lines evs st0)).
    apply run_lines_topological_from; [exact Hwf| |].
    + intros p v Hp. discriminate.
    + intros i l id Hi. discriminate.
  - intros st Hrun. now rewrite (run_text _ _ _ Hwf Hrun).
Qed.

End Runs.

Section Claims.
Context {E : Externals}.

(** ** Claims about the filter, the gate and the emitter *)

Lemma char_code_inj (a b : ascii) : char_code a = char_code b -> a = b.
Proof.
  unfold char_code. intros H. apply Nat2Z.inj in H.
  now rewrite <- (ascii_nat_embedding a), <- (ascii_nat_embedding b), H.
Qed.

Lemma strncmp_cons (c1 c2 : ascii) (r1 r2 : string) (n : nat) :
  strncmp (String c1 r1) (String c2 r2) (S n) = 0 ->
  c1 = c2 /\ strncmp r1 r2 n = 0.
Proof.
  simpl. destruct (Ascii.eqb_spec c1 c2) as [->|Hne]; [auto|].
  intros H. elim Hne. apply char_code_inj. lia.
Qed.

Lemma strncmp_file (s : string) :
  strncmp s "file:" 5 = 0 -> exists rest, s = "file:" ++ rest.
Proof.
  intros H.
  do 5 (destruct s as [|? s]; [discriminate H|];
        apply strncmp_cons in H; destruct H as [-> H]).
  now exists s.
Qed.

Lemma str_offset_app (a b : string) (n : nat) :
  str_offset (a ++ b) (String.length a + n) = str_offset b n.
Proof.
  induction a as [|c a IH]; [reflexivity|].
  change (str_offset (a ++ b) (String.length a + n) = str_offset b n).
  exact IH.
Qed.

Lemma both_orders_reject_alike (k : Klass) (cfs : option ClassFileStream)
  (st : VM) :
  first_rejection code_order k cfs st = None <->
  first_rejection spec_order k cfs st = None.
Proof.
  unfold code_order, spec_order, first_rejection.
  destruct (rejects SharedCheck k cfs st); [reflexivity|].
  destruct (rejects SourceCheck k cfs st); [reflexivity|].
  destruct (rejects RegistrationCheck k cfs st); [reflexivity|].
  destruct (rejects SpeciesCheck k cfs st); [reflexivity|].
  destruct (rejects SuperGate k cfs st), (rejects InterfaceGate k cfs st),
    (rejects HiddenCheck k cfs st), (rejects PatchedCheck k cfs st);
    split; intros H; try discriminate; reflexivity.
Qed.

Lemma gate_rejects (k : Klass) (cfs : option ClassFileStream) (st : VM) :
  (java_super k <> nullptr /\ has_id (java_super k) st = false) \/
  (exists p, In p (local_interfaces k) /\ has_id p st = false) ->
  exists r, first_rejection code_order k cfs st = Some r.
Proof.
  intros H.
  destruct (first_rejection code_order k cfs st) as [r|] eqn:Hr; [eauto|].
  destruct (accepted_inv _ _ _ Hr) as (_ & Hs & Hi & _).
  destruct H as [[Hn Hno]|(p & Hp & Hno)].
  - destruct Hs as [Hs|Hs]; [now elim Hn|congruence].
  - rewrite (Hi p Hp) in Hno. discriminate.
Qed.

Lemma write_of_rejected (k : Klass) (cfs : option ClassFileStream) (st : VM)
  (r : return_point) :
  first_rejection code_order k cfs st = Some r ->
  emitted (LoadEvent k cfs) st = [] /\
  _classlist_file (snd (write k cfs st)) = _classlist_file st /\
  _id_table (snd (write k cfs st)) = _id_table st /\
  _total_ids (snd (write k cfs st)) = _total_ids st.
Proof.
  intros Hr. unfold emitted, write.
  destruct (ASSERT && negb (is_enabled st)); [simpl; auto|].
  destruct (negb (has_jrt_entry (world st))); [simpl; auto|].
  rewrite (write_to_stream_rejects _ _ _ _ _ Hr).
  destruct (after_registration_frame k cfs st) as (Ht & Hn & _).
  simpl. auto.
Qed.

Lemma run_lines_origin (evs : list event) (st : VM) (l : LogLine) :
  In l (run_lines evs st) ->
  exists k cfs, In (LoadEvent k cfs) evs /\ ll_klass l = this k.
Proof.
  revert st. induction evs as [|e evs IH]; intros st; simpl; [intros []|].
  intros Hin. apply in_app_or in Hin. destruct Hin as [Hin|Hin].
  - destruct e as [k cfs|p]; simpl in Hin; [|destruct Hin].
    destruct (write k cfs st) as [[[]|r|x] st1]; simpl in Hin;
      try destruct Hin as [<-|[]]; try destruct Hin.
    exists k, cfs. split; [now left|reflexivity].
  - destruct (step e st) as [[[]|r|x] st1]; try destruct Hin.
    + destruct (IH _ Hin) as (k & cfs & Hk & Heq). exists k, cfs. auto.
    + destruct (IH _ Hin) as (k & cfs & Hk & Heq). exists k, cfs. auto.
Qed.

Lemma step_keeps_absent (e : event) (st st1 : VM) (out : outcome unit)
  (p : N) :
  well_formed e ->
  step e st = (out, st1) ->
  (forall x, out <> Fault x) ->
  (forall k cfs, e = LoadEvent k cfs -> this k <> p) ->
  lookup_id p st = None -> lookup_id p st1 = None.
Proof.
  intros Hwf Hstep Hout Hne Hp.
  destruct e as [k cfs|q]; simpl in Hstep, Hwf.
  - destruct out as [[]|r|x]; [| |now elim (Hout x)].
    + destruct (write_val_inv _ _ _ _ Hwf Hstep) as (_ & Ht & _).
      unfold lookup_id at 1. rewrite Ht.
      change (lookup_id p (snd (get_id (this k) st)) = None).
      rewrite lookup_id_get_id.
      destruct (decide (this k = p)); [now elim (Hne k cfs)|exact Hp].
    + destruct (write_return_inv _ _ _ _ _ Hstep) as (Ht & _).
      unfold lookup_id in *. now rewrite Ht.
  - injection Hstep as <- <-. rewrite lookup_id_unloading.
    now destruct (decide (q = p)).
Qed.

Lemma run_keeps_absent (evs : list event) (st st' : VM) (p : N) :
  Forall well_formed evs ->
  run evs st = (Val tt, st') ->
  (forall k cfs, In (LoadEvent k cfs) evs -> this k <> p) ->
  lookup_id p st = None -> lookup_id p st' = None.
Proof.
  revert st. induction evs as [|e evs IH]; intros st Hwf Hrun Hne Hp.
  - simpl in Hrun. now injection Hrun as <-.
  - inversion Hwf as [|? ? He Hrest]. subst. cbn [run] in Hrun.
    destruct (step e st) as [out st1] eqn:Hstep.
    assert (Hout : forall x, out <> Fault x).
    { intros x ->. discriminate. }
    assert (Hp1 : lookup_id p st1 = None).
    { apply (step_keeps_absent e st st1 out); auto.
      intros k cfs ->. apply (Hne k cfs). now left. }
    apply (IH st1); auto.
    + destruct out as [[]|r|x]; auto. now elim (Hout x).
    + intros k cfs Hin. apply (Hne k cfs). now right.
Qed.

(** C4: an event that [write_to_stream] rejects, by an eligibility
    check or by the dependency gate, prints nothing and leaves the
    registry and the counter as they were; an event whose supertype or
    one of whose interfaces has no id is rejected; and since nothing is
    kept of a rejected event, a class [b] whose supertype had no id at
    its load event has no record and no id after any later events that
    do not load [b] again, whatever ids they assign. *)
Theorem rejected_event_leaves_no_trace :
  (forall (k : Klass) cfs s st r s' st',
      write_to_stream k cfs (s, st) = (Return r, (s', st')) ->
      s' = s /\ _id_table st' = _id_table st /\
      _total_ids st' = _total_ids st) /\
  (forall (k : Klass) cfs s st,
      (java_super k <> nullptr /\ has_id (java_super k) st = false) \/
      (exists p, In p (local_interfaces k) /\ has_id p st = false) ->
      exists r, write_to_stream k cfs (s, st) =
                  (Return r, (s, after_registration k cfs st))) /\
  (forall (b : Klass) cfs st evs,
      java_super b <> nullptr -> has_id (java_super b) st = false ->
      Forall well_formed evs ->
      (forall k c, In (LoadEvent k c) evs -> this k <> this b) ->
      let st1 := snd (step (LoadEvent b cfs) st) in
      emitted (LoadEvent b cfs) st = [] /\
      _classlist_file st1 = _classlist_file st /\
      (forall l, In l (run_lines evs st1) -> ll_klass l <> this b) /\
      (forall st2, has_id (this b) st = false ->
                   run evs st1 = (Val tt, st2) ->
                   has_id (this b) st2 = false)).
Proof.
  split; [|split].
  - intros k cfs s st r s' st' H.
    destruct (write_to_stream_return_inv _ _ _ _ _ _ _ H) as (_ & -> & ->).
    destruct (after_registration_frame k cfs st) as (Ht & Hn & _). auto.
  - intros k cfs s st H. destruct (gate_rejects k cfs st H) as [r Hr].
    exists r. now apply write_to_stream_rejects.
  - intros b cfs st evs Hn Hno Hwf Hne st1.
    destruct (gate_rejects b cfs st (or_introl (conj Hn Hno))) as [r Hr].
    destruct (write_of_rejected _ _ _ _ Hr) as (Hem & Hf & Ht & _).
    split; [exact Hem|]. split; [exact Hf|]. split.
    + intros l Hl. destruct (run_lines_origin _ _ _ Hl) as (k & c & Hin & ->).
      now apply (Hne k c).
    + intros st2 Hb Hrun. apply has_id_false_lookup.
      apply (run_keeps_absent evs st1 st2); auto.
      apply has_id_false_lookup in Hb. unfold lookup_id in *.
      unfold st1. simpl. now rewrite Ht.
Qed.

(** C6: [has_id] is true exactly when a mapping exists: it is false in
    the initial state, true once [get_id] has run, and false again once
    [handle_class_unloading] has removed the mapping; and after the
    removal of [x], through any later events that do not load [x]
    again, a load event of a class whose supertype is [x] is rejected:
    it adds no record and prints nothing. *)
Theorem has_id_iff_mapped :
  (forall k (st : VM), has_id k st = true <-> exists v, lookup_id k st = Some v) /\
  (forall k flag w, has_id k (boot flag w) = false) /\
  (forall k (st : VM),
      has_id k (snd (get_id k st)) = true /\
      has_id k (handle_class_unloading k (snd (get_id k st))) = false) /\
  (forall x (st st2 : VM) evs (k : Klass) cfs,
      x <> nullptr -> java_super k = x ->
      Forall well_formed evs ->
      (forall k' c, In (LoadEvent k' c) evs -> this k' <> x) ->
      run evs (handle_class_unloading x st) = (Val tt, st2) ->
      has_id x st2 = false /\
      (forall s, exists r, write_to_stream k cfs (s, st2) =
                             (Return r, (s, after_registration k cfs st2))) /\
      emitted (LoadEvent k cfs) st2 = [] /\
      _classlist_file (snd (write k cfs st2)) = _classlist_file st2).
Proof.
  split; [intros k st; apply has_id_lookup|].
  split; [reflexivity|]. split.
  - intros k st. split.
    + apply has_id_lookup. eexists. apply lookup_id_get_id_same.
    + apply has_id_false_lookup. rewrite lookup_id_unloading.
      now destruct (decide (k = k)).
  - intros x st st2 evs k cfs Hx Hsuper Hwf Hne Hrun.
    assert (Hno : has_id x st2 = false).
    { apply has_id_false_lookup.
      apply (run_keeps_absent evs _ st2 x Hwf Hrun Hne).
      rewrite lookup_id_unloading. now destruct (decide (x = x)). }
    split; [exact Hno|]. subst x.
    destruct (gate_rejects k cfs st2 (or_introl (conj Hx Hno))) as [r Hr].
    destruct (write_of_rejected _ _ _ _ Hr) as (Hem & Hf & _).
    split; [|split; assumption].
    intros s. exists r. now apply write_to_stream_rejects.
Qed.

(** C7: for every record that [write_to_stream] emits for a class of a
    non-builtin loader, the originating location starts with the file
    scheme and the line ends with the source field, which is that
    location without its first 5 characters (the scheme, the path
    separator kept), or without its first 6 characters on Windows (the
    drive letter kept); [file:/dir/foo.jar] gives [/dir/foo.jar] and,
    on Windows, [file:/C:/dir/foo.jar] gives [C:/dir/foo.jar]. *)
Theorem source_is_stripped (k : Klass) (cfs : option ClassFileStream)
  (o : outputStream) (st : VM) (s' : option outputStream) (st' : VM) :
  is_builtin_loader (class_loader_data k) = false ->
  has_super_if_unregistered k ->
  write_to_stream k cfs (Some o, st) = (Val tt, (s', st')) ->
  (exists rest before,
      cfs = Some {| source := Some ("file:" ++ rest) |} /\
      (WINDOWS = false -> source_path cfs = rest) /\
      (WINDOWS = true -> exists c, rest = String c (source_path cfs)) /\
      s' = Some {| os_file := os_file o ++ os_buffer o ++ before ++
                              " source: " ++ source_path cfs ++ newline;
                   os_buffer := "" |}) /\
  str_offset "file:/dir/foo.jar" 5 = Some "/dir/foo.jar" /\
  str_offset "file:/C:/dir/foo.jar" 6 = Some "C:/dir/foo.jar".
Proof.
  intros Hb Hwf H. split; [|split; reflexivity].
  destruct (write_to_stream_val_inv _ _ _ _ _ _ Hwf H)
    as (Hacc & _ & o' & Ho & ->).
  injection Ho as <-.
  rewrite write_to_stream_unfold, Hacc in H.
  destruct (accepted_inv _ _ _ Hacc) as (Hunreg & _).
  destruct (Hunreg Hb) as (_ & _ & src & -> & Hfile).
  destruct (strncmp_file _ Hfile) as [rest ->].
  apply emit_line_val_inv in H. destruct H as (_ & H).
  destruct (H Hb) as (_ & src' & path & Heq & Hp). injection Heq as <-.
  exists rest,
    (name k ++ " id: " ++ print_int (id_of (this k) st') ++
     " super: " ++ print_int (id_of (java_super k) st') ++
     render_interfaces (map (fun p => id_of p st') (local_interfaces k))).
  split; [reflexivity|]. unfold source_path.
  split; [|split].
  - intros ->. change 5%nat with (String.length "file:" + 0)%nat.
    now rewrite str_offset_app.
  - intros Hw. rewrite Hw in *.
    change 6%nat with (String.length "file:" + 1)%nat in *.
    rewrite str_offset_app in *.
    destruct rest as [|c rest]; [discriminate|]. simpl. eauto.
  - unfold render_line, line_of, source_path, os_flush, os_print.
    rewrite Hb. simpl. now rewrite !str_app_assoc.
Qed.

Lemma str_offset_defined (s : string) (n : nat) :
  (n <= String.length s)%nat -> str_offset s n <> None.
Proof.
  revert s. induction n as [|n IH]; intros s Hn; [discriminate|].
  destruct s as [|c s]; simpl in *; [lia|]. apply IH. lia.
Qed.

Lemma length_file_prefix (rest : string) :
  String.length ("file:" ++ rest) = (5 + String.length rest)%nat.
Proof. reflexivity. Qed.

Lemma rejected_by_super_gate (k : Klass) (cfs : option ClassFileStream)
  (st : VM) :
  first_rejection code_order k cfs st = Some SuperWithoutId ->
  java_super k <> nullptr /\ has_id (java_super k) st = false.
Proof.
  unfold code_order, first_rejection, rejects.
  destruct (negb (java_super k =? nullptr)%N && negb (has_id (java_super k) st))
    eqn:Hgate.
  - intros _. apply andb_prop in Hgate. destruct Hgate as [Hn Hs].
    apply Bool.negb_true_iff in Hn, Hs. split; [|exact Hs].
    now apply N.eqb_neq.
  - destruct (is_builtin_loader (class_loader_data k)); simpl.
    all: destruct (is_shared k); simpl; try discriminate.
    all: destruct cfs as [[[src|]]|]; simpl; try discriminate.
    all: try (destruct (strncmp src "file:" 5 =? 0)%Z;
              simpl; try discriminate).
    all: try (destruct (fst (add_unregistered_class k (world st)));
              simpl; try discriminate).
    all: try (destruct (strcmp src species_marker =? 0)%Z;
              simpl; try discriminate).
    all: destruct (forallb _ (local_interfaces k)); simpl; try discriminate.
    all: destruct (is_hidden k); simpl; try discriminate.
    all: destruct (is_patched (module k)); simpl; discriminate.
Qed.

(** C2, as amended: [write_to_stream] leaves at the [return] of the
    first check that fails in the order shared class, source,
    registration, synthetic-generation marker, supertype gate, interface
    gate, hidden class, patched module: the first four eligibility
    checks are evaluated in the listed order and before the dependency
    gate, the hidden-class and patched-module checks after it.  An
    event is rejected exactly when one of the six checks or the gate
    fails, in whichever of the two orders they are taken; an event that
    is recorded has passed them all; and an event that has passed them
    all is recorded when the stream is open, the class satisfies the
    class invariant and, on Windows, its location has at least 6
    characters. *)
Theorem checks_run_in_code_order (k : Klass) (cfs : option ClassFileStream)
  (s : option outputStream) (st : VM) :
  (forall r, fst (write_to_stream k cfs (s, st)) = Return r <->
             first_rejection code_order k cfs st = Some r) /\
  (first_rejection code_order k cfs st = None <->
   first_rejection spec_order k cfs st = None) /\
  ((exists r, fst (write_to_stream k cfs (s, st)) = Return r) <->
   first_rejection spec_order k cfs st <> None) /\
  (fst (write_to_stream k cfs (s, st)) = Val tt ->
   first_rejection spec_order k cfs st = None) /\
  (first_rejection spec_order k cfs st = None ->
   (exists o, s = Some o) ->
   has_super_if_unregistered k ->
   (WINDOWS = true -> is_builtin_loader (class_loader_data k) = false ->
    forall src, cfs = Some {| source := Some src |} ->
                (6 <= String.length src)%nat) ->
   fst (write_to_stream k cfs (s, st)) = Val tt).
Proof.
  pose proof (both_orders_reject_alike k cfs st) as Hboth.
  split; [intros r; apply write_to_stream_return_iff|].
  split; [exact Hboth|]. split; [|split].
  - split.
    + intros [r Hr]. apply write_to_stream_return_iff in Hr.
      intros Hnone. apply Hboth in Hnone. congruence.
    + intros Hsome.
      destruct (first_rejection code_order k cfs st) as [r|] eqn:Hr.
      * exists r. now apply write_to_stream_return_iff.
      * elim Hsome. now apply Hboth.
  - intros Hval. apply Hboth. rewrite write_to_stream_unfold in Hval.
    now destruct (first_rejection code_order k cfs st).
  - intros Hspec [o ->] Hwf Hwin. apply Hboth in Hspec.
    rewrite write_to_stream_accepts; [reflexivity|assumption..|].
    intros Hb src ->.
    destruct (accepted_inv _ _ _ Hspec) as (Hunreg & _).
    destruct (Hunreg Hb) as (_ & _ & s' & Heq & Hfile).
    injection Heq as <-. destruct (strncmp_file _ Hfile) as [rest ->].
    apply str_offset_defined. destruct WINDOWS eqn:Hw.
    + now apply (Hwin eq_refl Hb).
    + rewrite length_file_prefix. lia.
Qed.

(** C8: a candidate that passes the filter and the gate, on an open
    stream (the class satisfying the class invariant and, on Windows,
    its location being at least 6 characters long), gets exactly one
    line, which is then flushed: the buffer is empty afterwards and the
    file has grown by what was pending and the line.  The line is
    [<name> id: <id>] for a class of a builtin loader, the id being the
    one [get_id] allocates or reuses; for a class of another loader it
    continues with [ super: <id>], then [ interfaces:] and the ids of
    the interfaces in declaration order if there are any, then
    [ source: <path>]. *)
Theorem one_line_written_and_flushed (k : Klass)
  (cfs : option ClassFileStream) (o : outputStream) (st : VM) :
  first_rejection code_order k cfs st = None ->
  has_super_if_unregistered k ->
  (WINDOWS = true -> is_builtin_loader (class_loader_data k) = false ->
   forall src, cfs = Some {| source := Some src |} ->
               (6 <= String.length src)%nat) ->
  exists st' line,
    write_to_stream k cfs (Some o, st) =
      (Val tt,
       (Some {| os_file := os_file o ++ os_buffer o ++
                           render_line line ++ newline;
                os_buffer := "" |}, st')) /\
    line = line_of k cfs st' /\
    ll_id line = fst (get_id (this k) st) /\
    lookup_id (this k) st' = Some (ll_id line) /\
    (is_builtin_loader (class_loader_data k) = true ->
     render_line line = name k ++ " id: " ++ print_int (ll_id line)) /\
    (is_builtin_loader (class_loader_data k) = false ->
     render_line line =
       name k ++ " id: " ++ print_int (ll_id line) ++
       " super: " ++ print_int (id_of (java_super k) st) ++
       render_interfaces (map (fun p => id_of p st) (local_interfaces k)) ++
       " source: " ++ source_path cfs).
Proof.
  intros Hacc Hwf Hwin.
  destruct (accepted_inv _ _ _ Hacc) as (Hunreg & Hsuper & Hintf & _).
  set (st' := snd (get_id (this k) (after_registration k cfs st))).
  exists st', (line_of k cfs st').
  destruct (after_registration_frame k cfs st) as (Ht & Hn & _).
  destruct (get_id_congruence (this k) _ _ Ht Hn) as (Hfst & Ht' & _).
  assert (Hl : forall q, lookup_id q st' =
                         lookup_id q (snd (get_id (this k) st))).
  { intros q. unfold lookup_id, st'. now rewrite Ht'. }
  assert (Hkept : forall q, has_id q st = true -> id_of q st' = id_of q st).
  { intros q Hq. apply has_id_lookup in Hq. destruct Hq as [v Hv].
    rewrite (id_of_known _ _ _ Hv). apply id_of_known. rewrite Hl.
    now apply lookup_id_get_id_kept. }
  assert (Hid : lookup_id (this k) st' = Some (fst (get_id (this k) st))).
  { rewrite Hl. apply lookup_id_get_id_same. }
  split; [|split; [reflexivity|split; [|split; [|split]]]].
  - rewrite write_to_stream_accepts; [reflexivity|assumption..|].
    intros Hb src ->. destruct (Hunreg Hb) as (_ & _ & s' & Heq & Hfile).
    injection Heq as <-. destruct (strncmp_file _ Hfile) as [rest ->].
    apply str_offset_defined. destruct WINDOWS eqn:Hw.
    + now apply (Hwin eq_refl Hb).
    + rewrite length_file_prefix. lia.
  - simpl. now apply id_of_known.
  - simpl. now rewrite (id_of_known _ _ _ Hid).
  - intros Hb. unfold render_line, line_of. rewrite Hb. simpl.
    now rewrite str_app_nil_r.
  - intros Hb. unfold render_line, line_of. rewrite Hb. simpl.
    destruct Hsuper as [Hnull|Hs]; [now elim (Hwf Hb)|].
    rewrite (Hkept _ Hs). do 5 f_equal. f_equal. f_equal.
    apply map_ext_in. intros q Hq. apply Hkept. now apply Hintf.
Qed.

(** C9: when the runtime has no jrt entry, [write] logs one warning,
    clears [DumpLoadedClassList] and returns; the stream, the registry
    and the counter are untouched.  With the enable signal being that
    flag, the recorder is disabled from then on and every later write
    request does nothing: no fault, no warning, no output. *)
Theorem write_without_jrt_entry (k : Klass) (cfs : option ClassFileStream)
  (st : VM) :
  is_enabled st = true ->
  has_jrt_entry (world st) = false ->
  exists st',
    write k cfs st = (Return NoJrtEntry, st') /\
    cds_warnings st' = (cds_warnings st ++ [exploded_build_warning])%list /\
    DumpLoadedClassList st' = None /\
    _classlist_file st' = _classlist_file st /\
    _id_table st' = _id_table st /\
    _total_ids st' = _total_ids st /\
    world st' = world st /\
    ((forall x, is_enabled x = spec_is_enabled x) ->
     is_enabled st' = false /\
     forall reqs, write_requests reqs st' = (Val tt, st')).
Proof.
  intros Hen Hjrt. eexists. unfold write. rewrite Hen, Hjrt.
  rewrite Bool.andb_false_r. cbn [negb].
  split; [reflexivity|]. simpl. repeat (split; [reflexivity|]).
  intros Hspec.
  match goal with
  | |- is_enabled ?s = false /\ _ =>
      assert (Hoff : is_enabled s = false) by (rewrite Hspec; reflexivity);
      generalize dependent s
  end.
  intros st' Hoff. split; [exact Hoff|].
  induction reqs as [|[k' cfs'] reqs IH]; [reflexivity|].
  cbn [write_requests]. unfold write_request. rewrite Hoff. exact IH.
Qed.

(** C10: the dependency gate lets a class without supertype through;
    for a class of a non-builtin loader the emitter then asserts that
    the supertype is not null, an assertion that fails in a debug build
    on such a class; on a class that satisfies the class invariant
    (a class of a non-builtin loader has a supertype) the assertion
    never fails, and every record emitted for a class of a non-builtin
    loader carries the id already registered for its supertype. *)
Theorem super_field_of_unregistered :
  (forall (k : Klass) cfs s st,
      java_super k = nullptr ->
      fst (write_to_stream k cfs (s, st)) <> Return SuperWithoutId) /\
  (forall (k : Klass) cfs o st,
      ASSERT = true ->
      is_builtin_loader (class_loader_data k) = false ->
      java_super k = nullptr ->
      first_rejection code_order k cfs st = None ->
      fst (write_to_stream k cfs (Some o, st)) =
        Fault (AssertionFailure "must be")) /\
  (forall (k : Klass) cfs s st,
      has_super_if_unregistered k ->
      fst (write_to_stream k cfs (s, st)) <>
        Fault (AssertionFailure "must be")) /\
  (forall (k : Klass) cfs s st s' st',
      has_super_if_unregistered k ->
      is_builtin_loader (class_loader_data k) = false ->
      write_to_stream k cfs (s, st) = (Val tt, (s', st')) ->
      exists super_id interface_ids path,
        lookup_id (java_super k) st = Some super_id /\
        ll_unregistered (line_of k cfs st') =
          Some (super_id, interface_ids, path) /\
        exists o, s = Some o /\
                  s' = Some (os_flush (os_print
                               (render_line (line_of k cfs st') ++ newline)
                               o))).
Proof.
  split; [|split; [|split]].
  - intros k cfs s st Hnull H.
    apply write_to_stream_return_iff in H.
    apply rejected_by_super_gate in H. now destruct H.
  - intros k cfs o st HA Hb Hnull Hacc.
    rewrite write_to_stream_unfold, Hacc. unfold emit_line.
    rewrite Hb. cbn [negb]. mrun. unfold assert_that.
    rewrite HA, Hnull. simpl. now mrun.
  - intros k cfs s st Hwf H. rewrite write_to_stream_unfold in H.
    destruct (first_rejection code_order k cfs st); [discriminate|].
    pose proof (assertion_holds_emit_line k cfs Hwf
                  (s, after_registration k cfs st)) as Hn.
    rewrite H in Hn. now elim Hn.
  - intros k cfs s st s' st' Hwf Hb H.
    destruct (write_to_stream_val_inv _ _ _ _ _ _ Hwf H)
      as (Hacc & Hst' & o & Ho & Hs').
    destruct (accepted_inv _ _ _ Hacc) as (_ & Hsuper & _).
    destruct Hsuper as [Hnull|Hs]; [now elim (Hwf Hb)|].
    apply has_id_lookup in Hs. destruct Hs as [v Hv].
    exists v, (map (fun p => id_of p st') (local_interfaces k)),
      (source_path cfs).
    split; [exact Hv|]. split; [|eauto].
    unfold line_of. rewrite Hb. simpl. do 3 f_equal.
    apply id_of_known. rewrite Hst'. apply lookup_id_get_id_kept.
    now rewrite lookup_id_after_registration.
Qed.

End Claims.

(** * The claims on a concrete runtime *)

(** The recorded text of the demonstration run. *)
Example demo_log :
  file_text (snd (@run Demo.R Demo.events (Demo.start Demo.R []))) =
    header ++
    "java/lang/Object id: 0" ++ newline ++
    "java/lang/Runnable id: 1" ++ newline ++
    "app/Task id: 2 super: 0 interfaces: 1 source: /dir/foo.jar" ++ newline.
Proof. vm_compute. reflexivity. Qed.

Lemma demo_events_well_formed : Forall (@well_formed Demo.R) Demo.events.
Proof.
  repeat constructor; intros H; try discriminate H; discriminate.
Qed.

Lemma log_is_topological_witness :
  topological (@run_lines Demo.R Demo.events (Demo.start Demo.R [])).
Proof.
  apply (@log_is_topological Demo.R "classes.lst" [] Demo.events).
  exact demo_events_well_formed.
Defined.

(** C2, the counterexample: a hidden class whose supertype has no id
    leaves [write_to_stream] at the [return] of the dependency gate,
    while the six eligibility checks, had they all been evaluated before
    the gate, would have rejected it at the hidden-class check. *)
Lemma spec_order_counterexample :
  fst (@write_to_stream Demo.R Demo.hidden_orphan None
         (Some Demo.console, Demo.start Demo.R [])) = Return SuperWithoutId /\
  @first_rejection Demo.R spec_order Demo.hidden_orphan None
    (Demo.start Demo.R []) = Some HiddenClass.
Proof. split; vm_compute; reflexivity. Qed.

Lemma checks_run_in_code_order_witness :
  @first_rejection Demo.R code_order Demo.hidden_orphan None
    (Demo.start Demo.R []) = Some SuperWithoutId /\
  fst (@write_to_stream Demo.R Demo.Task_ Demo.jar
         (Some Demo.console, Demo.st2)) = Val tt.
Proof.
  split.
  - apply (proj1 (@checks_run_in_code_order Demo.R Demo.hidden_orphan None
                    (Some Demo.console) (Demo.start Demo.R []))).
    vm_compute. reflexivity.
  - apply (proj2 (proj2 (proj2 (proj2
             (@checks_run_in_code_order Demo.R Demo.Task_ Demo.jar
                (Some Demo.console) Demo.st2))))).
    + vm_compute. reflexivity.
    + now exists Demo.console.
    + intros _. discriminate.
    + intros Hw. discriminate Hw.
Defined.

Lemma ids_increase_without_reuse_witness :
  @assigned_ids Demo.R Demo.ops (@boot Demo.R None []) = [0; 1; 2; 3].
Proof.
  rewrite (proj1 (@ids_increase_without_reuse Demo.R (@boot Demo.R None [])
                    Demo.ops eq_refl eq_refl eq_refl)).
  vm_compute. reflexivity.
Defined.

Lemma rejected_event_leaves_no_trace_witness :
  @emitted Demo.R (@LoadEvent Demo.R Demo.Task_ Demo.jar) (Demo.start Demo.R []) = [].
Proof.
  apply (proj2 (proj2 (@rejected_event_leaves_no_trace Demo.R))
           Demo.Task_ Demo.jar (Demo.start Demo.R [])
           [@LoadEvent Demo.R Demo.Object_ None]).
  - discriminate.
  - vm_compute. reflexivity.
  - repeat constructor. intros H. discriminate H.
  - intros k c [H|[]]. injection H as <- <-. discriminate.
Defined.

Lemma get_id_idempotent_witness :
  @get_id Demo.R 1 (snd (@get_id Demo.R 1 Demo.st2)) =
    (0, snd (@get_id Demo.R 1 Demo.st2)).
Proof.
  rewrite (proj1 (@get_id_idempotent Demo.R 1 Demo.st2)).
  vm_compute. reflexivity.
Defined.

Lemma has_id_iff_mapped_witness :
  @has_id Demo.R 1
    (snd (@run Demo.R [@LoadEvent Demo.R Demo.Runnable_ None]
            (@handle_class_unloading Demo.R 1 Demo.st2))) = false /\
  @emitted Demo.R (@LoadEvent Demo.R Demo.Task_ Demo.jar)
    (snd (@run Demo.R [@LoadEvent Demo.R Demo.Runnable_ None]
            (@handle_class_unloading Demo.R 1 Demo.st2))) = [].
Proof.
  destruct (proj2 (proj2 (proj2 (@has_id_iff_mapped Demo.R)))
              1%N Demo.st2
              (snd (@run Demo.R [@LoadEvent Demo.R Demo.Runnable_ None]
                      (@handle_class_unloading Demo.R 1 Demo.st2)))
              [@LoadEvent Demo.R Demo.Runnable_ None]
              Demo.Task_ Demo.jar) as (H1 & _ & H3 & _).
  - discriminate.
  - reflexivity.
  - repeat constructor. intros H. discriminate H.
  - intros k c [H|[]]. injection H as <- <-. discriminate.
  - vm_compute. reflexivity.
  - split; assumption.
Defined.

Lemma source_is_stripped_witness :
  exists rest,
    Demo.jar = Some {| source := Some ("file:" ++ rest) |} /\
    @source_path Demo.R Demo.jar = rest.
Proof.
  destruct (@source_is_stripped Demo.R Demo.Task_ Demo.jar Demo.console
              Demo.st2
              (fst (snd (@write_to_stream Demo.R Demo.Task_ Demo.jar
                           (Some Demo.console, Demo.st2))))
              (snd (snd (@write_to_stream Demo.R Demo.Task_ Demo.jar
                           (Some Demo.console, Demo.st2)))))
    as ((rest & before & Hcfs & Hpath & _) & _).
  - reflexivity.
  - intros _. discriminate.
  - vm_compute. reflexivity.
  - exists rest. split; [exact Hcfs|]. apply Hpath. reflexivity.
Defined.

Lemma one_line_written_and_flushed_witness :
  exists st' line,
    @write_to_stream Demo.Rwin Demo.Task_ Demo.win_jar
      (Some Demo.console, Demo.st2win) =
    (Val tt,
     (Some {| os_file := "" ++ "" ++ render_line line ++ newline;
              os_buffer := "" |}, st')) /\
    ll_id line = 2 /\
    render_line line =
      "app/Task id: 2 super: 0 interfaces: 1 source: C:/dir/foo.jar".
Proof.
  destruct (@one_line_written_and_flushed Demo.Rwin Demo.Task_ Demo.win_jar
              Demo.console Demo.st2win)
    as (st' & line & Hw & _ & Hid & _ & _ & Hline).
  - vm_compute. reflexivity.
  - intros _. discriminate.
  - intros _ _ src H. injection H as <-. vm_compute. lia.
  - exists st', line. split; [exact Hw|]. split; [exact Hid|].
    rewrite (Hline eq_refl), Hid. vm_compute. reflexivity.
Defined.

Lemma write_without_jrt_entry_witness :
  exists st',
    @write Demo.Rexploded Demo.Object_ None (Demo.start Demo.Rexploded []) =
      (Return NoJrtEntry, st') /\
    forall reqs, @write_requests Demo.Rexploded reqs st' = (Val tt, st').
Proof.
  destruct (@write_without_jrt_entry Demo.Rexploded Demo.Object_ None
              (Demo.start Demo.Rexploded []))
    as (st' & Hw & _ & _ & _ & _ & _ & _ & Hlater).
  - reflexivity.
  - reflexivity.
  - exists st'. split; [exact Hw|]. apply Hlater. intros x. reflexivity.
Defined.

Lemma super_field_of_unregistered_witness :
  fst (@write_to_stream Demo.R Demo.Task_ Demo.jar
         (Some Demo.console, Demo.st2)) <>
    Fault (AssertionFailure "must be").
Proof.
  apply (proj1 (proj2 (proj2 (@super_field_of_unregistered Demo.R)))).
  intros _. discriminate.
Defined.

(** * Further properties of the writer *)

Section FrameLaws.
Context {E : Externals}.

Lemma preserves_bind {A B} (R : frame -> frame -> Prop) (m : M A)
  (k : A -> M B) :
  (forall f1 f2 f3, R f1 f2 -> R f2 f3 -> R f1 f3) ->
  preserves R m -> (forall a, preserves R (k a)) -> preserves R (bind m k).
Proof.
  intros Htrans Hm Hk f. unfold bind. specialize (Hm f).
  destruct (m f) as [[a|r|x] f1]; simpl in *; auto.
  apply (Htrans _ f1); [exact Hm | apply Hk].
Qed.

Lemma preserves_unchanged {A} (R : frame -> frame -> Prop) (o : outcome A) :
  (forall f, R f f) -> preserves R (fun f => (o, f)).
Proof. intros Hrefl f. apply Hrefl. Qed.

Lemma same_flushed_refl (f : frame) : same_flushed f f.
Proof. reflexivity. Qed.

Lemma same_flushed_trans (f1 f2 f3 : frame) :
  same_flushed f1 f2 -> same_flushed f2 f3 -> same_flushed f1 f3.
Proof. unfold same_flushed. congruence. Qed.

Lemma text_extends_refl (f : frame) : text_extends f f.
Proof. exists "". now rewrite str_app_nil_r. Qed.

Lemma text_extends_trans (f1 f2 f3 : frame) :
  text_extends f1 f2 -> text_extends f2 f3 -> text_extends f1 f3.
Proof.
  intros [t1 H1] [t2 H2]. exists (t1 ++ t2).
  now rewrite H2, H1, str_app_assoc.
Qed.

Lemma same_world_refl (f : frame) : same_world f f.
Proof. reflexivity. Qed.

Lemma same_world_trans (f1 f2 f3 : frame) :
  same_world f1 f2 -> same_world f2 f3 -> same_world f1 f3.
Proof. unfold same_world. congruence. Qed.

Lemma print_same_flushed (txt : string) : preserves same_flushed (print txt).
Proof. intros [[o|] st]; reflexivity. Qed.

Lemma print_text_extends (txt : string) : preserves text_extends (print txt).
Proof.
  intros [[o|] st]; simpl; [|apply text_extends_refl].
  exists txt. unfold printed, os_text. simpl. now rewrite str_app_assoc.
Qed.

Lemma print_same_world (txt : string) : preserves same_world (print txt).
Proof. intros [[o|] st]; reflexivity. Qed.

Lemma flush_text_extends : preserves text_extends flush.
Proof.
  intros [[o|] st]; simpl; [|apply text_extends_refl].
  exists "". unfold printed, os_text. simpl. now rewrite !str_app_nil_r.
Qed.

Lemma flush_same_world : preserves same_world flush.
Proof. intros [[o|] st]; reflexivity. Qed.

Lemma get_id_same_flushed (p : N) : preserves same_flushed (call (get_id p)).
Proof. intros [s st]. unfold call. simpl. now destruct (get_id p st). Qed.

Lemma get_id_text_extends (p : N) : preserves text_extends (call (get_id p)).
Proof.
  intros [s st]. unfold call. simpl. destruct (get_id p st). simpl.
  exists "". now rewrite str_app_nil_r.
Qed.

Lemma get_id_same_world (p : N) : preserves same_world (call (get_id p)).
Proof.
  intros [s st]. unfold call, same_world. simpl.
  pose proof (get_id_frame p st) as (_ & _ & _ & Hw).
  now destruct (get_id p st).
Qed.

End FrameLaws.

Ltac split_cases :=
  match goal with
  | |- preserves _ (if ?c then _ else _) => destruct c
  | |- preserves _ (match ?c with _ => _ end) => destruct c
  end.

Ltac text_extends_step :=
  first
    [ apply preserves_bind; [exact text_extends_trans | | intros ?]
    | apply print_text_extends
    | apply get_id_text_extends
    | apply flush_text_extends
    | apply preserves_unchanged; exact text_extends_refl
    | split_cases ].

Ltac same_world_step :=
  first
    [ apply preserves_bind; [exact same_world_trans | | intros ?]
    | apply print_same_world
    | apply get_id_same_world
    | apply flush_same_world
    | apply preserves_unchanged; exact same_world_refl
    | split_cases ].

Ltac same_flushed_step :=
  first
    [ apply preserves_bind; [exact same_flushed_trans | | intros ?]
    | apply print_same_flushed
    | apply get_id_same_flushed
    | apply preserves_unchanged; exact same_flushed_refl
    | split_cases ].

Section Further.
Context {E : Externals}.

Lemma print_interface_ids_preserves (R : frame -> frame -> Prop)
  (l : list N) :
  (forall f, R f f) ->
  (forall f1 f2 f3, R f1 f2 -> R f2 f3 -> R f1 f3) ->
  (forall p, preserves R (call (get_id p))) ->
  (forall txt, preserves R (print txt)) ->
  preserves R (print_interface_ids l).
Proof.
  intros Hrefl Htrans Hget Hprint. induction l as [|p l IH]; simpl.
  - now apply preserves_unchanged.
  - apply preserves_bind; [exact Htrans|apply Hget|intros id].
    apply preserves_bind; [exact Htrans|apply Hprint|intros _; exact IH].
Qed.

Lemma emit_line_text_extends (k : Klass) (cfs : option ClassFileStream) :
  preserves text_extends (emit_line k cfs).
Proof.
  unfold emit_line, assert_that, cr, pure, crash.
  repeat first
    [ apply print_interface_ids_preserves;
      [ exact text_extends_refl | exact text_extends_trans
      | exact get_id_text_extends | exact print_text_extends ]
    | text_extends_step ].
Qed.

Lemma emit_line_same_world (k : Klass) (cfs : option ClassFileStream) :
  preserves same_world (emit_line k cfs).
Proof.
  unfold emit_line, assert_that, cr, pure, crash.
  repeat first
    [ apply print_interface_ids_preserves;
      [ exact same_world_refl | exact same_world_trans
      | exact get_id_same_world | exact print_same_world ]
    | same_world_step ].
Qed.

Lemma flushes_at_end_bind {A B} (m : M A) (k : A -> M B) :
  preserves same_flushed m -> (forall a, flushes_at_end (k a)) ->
  flushes_at_end (bind m k).
Proof.
  intros Hm Hk f. unfold bind. specialize (Hm f).
  destruct (m f) as [[a|r|x] f1]; simpl in *; auto.
  destruct (Hk a f1) as [Hv|Hs]; [now left|right].
  now apply (same_flushed_trans _ f1).
Qed.

Lemma flushes_at_end_flush : flushes_at_end flush.
Proof. intros [[o|] st]; [left; now exists tt|right; reflexivity]. Qed.

Lemma emit_line_flushes_at_end (k : Klass) (cfs : option ClassFileStream) :
  flushes_at_end (emit_line k cfs).
Proof.
  unfold emit_line, cr.
  apply flushes_at_end_bind; [apply get_id_same_flushed|intros id].
  apply flushes_at_end_bind; [apply print_same_flushed|intros _].
  apply flushes_at_end_bind; [|intros _].
  - unfold assert_that, pure, crash.
    repeat first
      [ apply print_interface_ids_preserves;
        [ exact same_flushed_refl | exact same_flushed_trans
        | exact get_id_same_flushed | exact print_same_flushed ]
      | same_flushed_step ].
  - apply flushes_at_end_bind; [apply print_same_flushed|intros _].
    apply flushes_at_end_flush.
Qed.

(** X1: whatever [write_to_stream] is called on and however it ends,
    what had been printed to the stream is still there: the text
    afterwards is the text before, followed by what the call printed. *)
Theorem write_to_stream_appends (k : Klass) (cfs : option ClassFileStream)
  (f : frame) :
  exists t,
    printed (fst (snd (write_to_stream k cfs f))) = printed (fst f) ++ t.
Proof.
  destruct f as [s st]. rewrite write_to_stream_unfold.
  destruct (first_rejection code_order k cfs st).
  - exists "". simpl. now rewrite str_app_nil_r.
  - apply (emit_line_text_extends k cfs (s, after_registration k cfs st)).
Qed.

(** X2: the file behind the stream changes only when [write_to_stream]
    runs to its end: a call that is rejected or faults (null stream,
    failed assertion, location too short on Windows) leaves the file as
    it was, so that no part of an unfinished line reaches it. *)
Theorem unfinished_line_is_not_flushed (k : Klass)
  (cfs : option ClassFileStream) (f : frame) :
  fst (write_to_stream k cfs f) <> Val tt ->
  flushed (fst (snd (write_to_stream k cfs f))) = flushed (fst f).
Proof.
  destruct f as [s st]. rewrite write_to_stream_unfold.
  destruct (first_rejection code_order k cfs st); [reflexivity|].
  intros Hnot.
  destruct (emit_line_flushes_at_end k cfs (s, after_registration k cfs st))
    as [[[] Hv]|Hs]; [now elim Hnot|exact Hs].
Qed.

(** X3: [write_to_stream] calls [add_unregistered_class] exactly when
    the class is of a non-builtin loader, is not shared and has a
    location that starts with the file scheme, and then keeps the state
    that call left, whether the event is later recorded, rejected (by
    the marker, the gate, the hidden or the patched check) or faults;
    in every other case the state of the collaborators is untouched. *)
Theorem registration_is_attempted_before_the_gate (k : Klass)
  (cfs : option ClassFileStream) (s : option outputStream) (st : VM) :
  let w' := world (snd (snd (write_to_stream k cfs (s, st)))) in
  (is_builtin_loader (class_loader_data k) = true -> w' = world st) /\
  (is_shared k = true -> w' = world st) /\
  (is_builtin_loader (class_loader_data k) = false ->
   (forall src, cfs = Some {| source := Some src |} ->
                strncmp src "file:" 5 <> 0) ->
   w' = world st) /\
  (forall src,
      is_builtin_loader (class_loader_data k) = false ->
      is_shared k = false ->
      cfs = Some {| source := Some src |} ->
      strncmp src "file:" 5 = 0 ->
      w' = snd (add_unregistered_class k (world st))).
Proof.
  intros w'.
  assert (Hw : w' = world (after_registration k cfs st)).
  { unfold w'. rewrite write_to_stream_unfold.
    destruct (first_rejection code_order k cfs st); [reflexivity|].
    apply (emit_line_same_world k cfs (s, after_registration k cfs st)). }
  rewrite Hw. unfold after_registration, first_rejection, rejects.
  split; [|split; [|split]].
  - intros ->. simpl. now destruct cfs as [[[src|]]|].
  - intros ->. rewrite Bool.andb_true_r.
    now destruct (is_builtin_loader (class_loader_data k)).
  - intros -> Hsrc. simpl. destruct (is_shared k); [reflexivity|].
    destruct cfs as [[[src|]]|]; try reflexivity.
    destruct (strncmp src "file:" 5 =? 0)%Z eqn:Hz; [|reflexivity].
    apply Z.eqb_eq in Hz. now elim (Hsrc src).
  - intros src -> -> -> Hz. simpl. apply Z.eqb_eq in Hz. now rewrite Hz.
Qed.

Lemma marker_is_not_a_file (src : string) :
  strcmp src species_marker = 0 -> strncmp src "file:" 5 <> 0.
Proof.
  destruct src as [|c src]; [discriminate|].
  unfold species_marker. simpl.
  destruct (Ascii.eqb_spec c "_") as [->|Hne].
  - intros _. discriminate.
  - intros H. elim Hne. apply char_code_inj. simpl. lia.
Qed.

(** X4: a class of a non-builtin loader never leaves [write_to_stream]
    at the [return] of the synthetic-generation marker (line 130): a
    location equal to the marker does not start with the file scheme,
    and the event has left at line 117 before; the marker test can only
    fire for classes of the builtin loaders. *)
Theorem marker_rejects_builtin_classes_only (k : Klass)
  (cfs : option ClassFileStream) (f : frame) :
  is_builtin_loader (class_loader_data k) = false ->
  fst (write_to_stream k cfs f) <> Return SpeciesCode.
Proof.
  intros Hb H. destruct f as [s st].
  apply write_to_stream_return_iff in H. revert H.
  unfold code_order, first_rejection, rejects. rewrite Hb. simpl.
  destruct (is_shared k); [discriminate|].
  destruct cfs as [[[src|]]|]; try discriminate.
  destruct (strncmp src "file:" 5 =? 0)%Z eqn:Hfile; [|discriminate].
  destruct (negb (fst (add_unregistered_class k (world st))));
    [discriminate|].
  destruct (strcmp src species_marker =? 0)%Z eqn:Hm.
  - apply Z.eqb_eq in Hfile, Hm. now elim (marker_is_not_a_file src Hm).
  - destruct (negb (java_super k =? nullptr)%N &&
              negb (has_id (java_super k) st)); [discriminate|].
    destruct (forallb _ (local_interfaces k)); [|discriminate].
    destruct (is_hidden k); [discriminate|].
    destruct (is_patched (module k)); discriminate.
Qed.

(** X5: for a class of a builtin loader the class file stream matters
    only through the marker test: with any stream whose location is not
    the marker, [write_to_stream] does exactly what it does with no
    stream at all. *)
Theorem builtin_class_ignores_its_source (k : Klass)
  (cfs : option ClassFileStream) (f : frame) :
  is_builtin_loader (class_loader_data k) = true ->
  (forall src, cfs = Some {| source := Some src |} ->
               strcmp src species_marker <> 0) ->
  write_to_stream k cfs f = write_to_stream k None f.
Proof.
  intros Hb Hsrc.
  unfold write_to_stream, filter_and_gate, emit_line. rewrite Hb.
  cbn [negb]. destruct cfs as [[[src|]]|]; try reflexivity.
  cbn [source].
  destruct (strcmp src species_marker =? 0)%Z eqn:Hm; [|reflexivity].
  apply Z.eqb_eq in Hm. now elim (Hsrc src).
Qed.

Lemma first_rejection_none (order : list check) (k : Klass)
  (cfs : option ClassFileStream) (st : VM) :
  first_rejection order k cfs st = None <->
  forall c, In c order -> rejects c k cfs st = None.
Proof.
  induction order as [|c order IH]; simpl.
  - split; [intros _ c []|reflexivity].
  - destruct (rejects c k cfs st) eqn:Hc.
    + split; [discriminate|]. intros H.
      rewrite (H c (or_introl eq_refl)) in Hc. discriminate.
    + rewrite IH. split.
      * intros H c' [<-|Hin]; [exact Hc|now apply H].
      * intros H c' Hin. apply H. now right.
Qed.

Lemma builtin_acceptance_is_stable (k : Klass) (cfs : option ClassFileStream)
  (st st' : VM) :
  is_builtin_loader (class_loader_data k) = true ->
  (forall p, has_id p st = true -> has_id p st' = true) ->
  first_rejection code_order k cfs st = None ->
  first_rejection code_order k cfs st' = None.
Proof.
  intros Hb Hmono Hacc.
  destruct (accepted_inv _ _ _ Hacc) as (_ & Hsuper & Hintf & _).
  rewrite first_rejection_none in Hacc. apply first_rejection_none.
  intros c Hc. specialize (Hacc c Hc). revert Hacc.
  destruct c; unfold rejects; rewrite ?Hb; cbn [negb andb]; auto.
  - intros _. destruct Hsuper as [->|Hs]; [reflexivity|].
    rewrite (Hmono _ Hs). now rewrite Bool.andb_false_r.
  - intros _.
    assert (Hall : forallb (fun p => has_id p st') (local_interfaces k) = true).
    { apply forallb_forall. intros p Hp. apply Hmono, Hintf, Hp. }
    now rewrite Hall.
Qed.

Lemma after_registration_builtin (k : Klass) (cfs : option ClassFileStream)
  (st : VM) :
  is_builtin_loader (class_loader_data k) = true ->
  after_registration k cfs st = st.
Proof.
  intros Hb. unfold after_registration, first_rejection, rejects.
  rewrite Hb. reflexivity.
Qed.

(** X6: [write_to_stream] does not remember what it has recorded: a
    class of a builtin loader that is presented again after it was
    recorded gets the same line a second time, with the id it already
    has, and the registry and the counter stay as the first call left
    them. *)
Theorem duplicate_event_is_recorded_again (k : Klass)
  (cfs : option ClassFileStream) (o : outputStream) (st : VM) :
  is_builtin_loader (class_loader_data k) = true ->
  first_rejection code_order k cfs st = None ->
  exists st1 line,
    write_to_stream k cfs (Some o, st) =
      (Val tt,
       (Some (os_flush (os_print (render_line line ++ newline) o)), st1)) /\
    ll_id line = fst (get_id (this k) st) /\
    forall o',
      write_to_stream k cfs (Some o', st1) =
        (Val tt,
         (Some (os_flush (os_print (render_line line ++ newline) o')), st1)).
Proof.
  intros Hb Hacc.
  assert (Hwf : has_super_if_unregistered k).
  { intros Hb'. congruence. }
  assert (Hpath : is_builtin_loader (class_loader_data k) = false ->
            forall src, cfs = Some {| source := Some src |} ->
              str_offset src (if WINDOWS then 6 else 5)%nat <> None).
  { intros Hb'. congruence. }
  set (st1 := snd (get_id (this k) st)).
  exists st1, (line_of k cfs st1).
  assert (H1 : forall o1,
            write_to_stream k cfs (Some o1, st) =
              (Val tt,
               (Some (os_flush
                        (os_print (render_line (line_of k cfs st1) ++ newline)
                           o1)), st1))).
  { intros o1. rewrite write_to_stream_accepts by assumption.
    now rewrite after_registration_builtin. }
  assert (Hk : has_id (this k) st1 = true).
  { apply has_id_lookup. eexists. apply lookup_id_get_id_same. }
  split; [apply H1|]. split.
  - simpl. apply id_of_known, lookup_id_get_id_same.
  - intros o'. rewrite write_to_stream_accepts; try assumption.
    + rewrite after_registration_builtin by assumption.
      now rewrite (get_id_of_known _ _ Hk).
    + apply (builtin_acceptance_is_stable k cfs st st1 Hb); [|exact Hacc].
      intros p. apply has_id_get_id_kept.
Qed.

(** X7: the id is allocated before anything is printed: on a null
    stream an event that passed every check faults at the first
    [print], and by then [get_id] has given the class its id and
    advanced the counter. *)
Theorem null_stream_faults_after_allocation (k : Klass)
  (cfs : option ClassFileStream) (st : VM) :
  first_rejection code_order k cfs st = None ->
  exists st',
    write_to_stream k cfs (None, st) = (Fault NullPointer, (None, st')) /\
    has_id (this k) st' = true /\
    _id_table st' = _id_table (snd (get_id (this k) st)) /\
    _total_ids st' = _total_ids (snd (get_id (this k) st)).
Proof.
  intros Hacc.
  exists (snd (get_id (this k) (after_registration k cfs st))).
  destruct (after_registration_frame k cfs st) as (Ht & Hn & _).
  destruct (get_id_congruence (this k) _ _ Ht Hn) as (_ & Ht' & Hn').
  split; [|split; [|split; assumption]].
  - rewrite write_to_stream_unfold, Hacc. unfold emit_line.
    now rewrite bind_call.
  - apply has_id_lookup. eexists. apply lookup_id_get_id_same.
Qed.

(** X8: [handle_class_unloading] behaves as a removal from a set: on a
    class that has no mapping (the table absent included) it changes
    nothing, a second removal of the same class changes nothing more,
    and two removals give the same state in either order. *)
Theorem unloading_is_a_removal :
  (forall k (st : VM),
      lookup_id k st = None -> handle_class_unloading k st = st) /\
  (forall k (st : VM),
      handle_class_unloading k (handle_class_unloading k st) =
      handle_class_unloading k st) /\
  (forall k1 k2 (st : VM),
      handle_class_unloading k1 (handle_class_unloading k2 st) =
      handle_class_unloading k2 (handle_class_unloading k1 st)).
Proof.
  split; [|split].
  - intros k [d f t n c w]. unfold lookup_id, handle_class_unloading.
    simpl. destruct t as [t|]; [|reflexivity].
    intros H. unfold set_id_table. simpl. now rewrite (delete_id _ _ H).
  - intros k [d f t n c w]. unfold handle_class_unloading, set_id_table.
    simpl. destruct t as [t|]; [|reflexivity]. simpl.
    now rewrite delete_delete_eq.
  - intros k1 k2 [d f t n c w]. unfold handle_class_unloading, set_id_table.
    simpl. destruct t as [t|]; [|reflexivity]. simpl.
    now rewrite delete_delete.
Qed.

Lemma str_offset_past_end (s : string) (n : nat) :
  (String.length s < n)%nat -> str_offset s n = None.
Proof.
  revert s. induction n as [|n IH]; intros s Hn; [lia|].
  destruct s as [|c s]; [reflexivity|]. simpl in *. apply IH. lia.
Qed.

(** X9: under [_WINDOWS] the emitter reads the location from its 7th
    character on, while the filter has only checked the first 5: for a
    location of at most 5 characters (the bare scheme) the read lies
    past the end of the string.  The model faults there, with the id
    already allocated and the beginning of the line pending in the
    buffer; nothing of it has reached the file. *)
Theorem short_location_is_read_past_its_end (k : Klass) (src : string)
  (o : outputStream) (st : VM) :
  WINDOWS = true ->
  is_builtin_loader (class_loader_data k) = false ->
  has_super_if_unregistered k ->
  (String.length src <= 5)%nat ->
  first_rejection code_order k (Some {| source := Some src |}) st = None ->
  exists o' st',
    write_to_stream k (Some {| source := Some src |}) (Some o, st) =
      (Fault OutOfBounds, (Some o', st')) /\
    os_file o' = os_file o /\
    has_id (this k) st' = true.
Proof.
  intros Hw Hb Hwf Hlen Hacc.
  destruct (accepted_inv _ _ _ Hacc) as (_ & Hsuper & Hintf & _).
  set (cfs := Some {| source := Some src |}) in *.
  set (st0 := after_registration k cfs st).
  set (st1 := snd (get_id (this k) st0)).
  set (st2 := snd (get_id (java_super k) st1)).
  assert (Hp : str_offset src (if WINDOWS then 6 else 5)%nat = None).
  { rewrite Hw. apply str_offset_past_end. lia. }
  assert (Hassert : ASSERT && negb (negb (java_super k =? nullptr)%N) = false).
  { rewrite Bool.negb_involutive.
    destruct (N.eqb_spec (java_super k) nullptr) as [Hn|Hn];
      [now elim (Hwf Hb)|apply Bool.andb_false_r]. }
  assert (Hi : forall p, In p (local_interfaces k) -> has_id p st2 = true).
  { intros p Hin. unfold st2, st1, st0.
    do 2 apply has_id_get_id_kept. rewrite has_id_after_registration. auto. }
  assert (Hk : has_id (this k) st2 = true).
  { unfold st2. apply has_id_get_id_kept. apply has_id_lookup.
    eexists. apply lookup_id_get_id_same. }
  rewrite write_to_stream_unfold, Hacc. fold st0.
  unfold emit_line, assert_that, cfs. rewrite Hb, Hassert.
  cbn [negb source]. rewrite Hp. mrun. fold st1 st2.
  destruct (local_interfaces k) as [|p l] eqn:Hl.
  - mrun. eexists _, st2. split; [reflexivity|]. split; [reflexivity|exact Hk].
  - mrun. erewrite bind_val by (apply print_interface_ids_known; exact Hi).
    mrun. eexists _, st2. split; [reflexivity|]. split; [reflexivity|exact Hk].
Qed.

Lemma registry_ok_congruence (st1 st2 : VM) :
  _id_table st1 = _id_table st2 -> _total_ids st1 = _total_ids st2 ->
  registry_ok st2 -> registry_ok st1.
Proof.
  unfold registry_ok, lookup_id. now intros -> ->.
Qed.

Lemma step_file (e : event) (st st1 : VM) (out : outcome unit) :
  well_formed e ->
  step e st = (out, st1) ->
  (forall x, out <> Fault x) ->
  (emitted e st = [] /\ _classlist_file st1 = _classlist_file st) \/
  (exists l o,
      emitted e st = [l] /\ _classlist_file st = Some o /\
      _classlist_file st1 =
        Some (os_flush (os_print (render_line l ++ newline) o))).
Proof.
  intros Hwf Hstep Hout.
  pose proof (emitted_cases e st) as Hem. rewrite Hstep in Hem.
  destruct e as [k cfs|p]; simpl in Hstep, Hwf.
  - destruct out as [[]|r|x]; [| |now elim (Hout x)].
    + right. destruct (write_val_inv _ _ _ _ Hwf Hstep)
        as (_ & _ & _ & _ & _ & o & Ho & Ho1). eauto.
    + left. split; [exact Hem|].
      now destruct (write_return_inv _ _ _ _ _ Hstep) as (_ & _ & Hf).
  - left. injection Hstep as <- <-. split; [reflexivity|].
    unfold handle_class_unloading. now destruct (_id_table st).
Qed.

Lemma run_header_from (evs : list event) (st st' : VM) (ls : list LogLine) :
  Forall well_formed evs ->
  run evs st = (Val tt, st') ->
  (exists o, _classlist_file st = Some o /\
     ((ls = [] /\ os_file o = "" /\ os_buffer o = header) \/
      (ls <> [] /\ os_buffer o = "" /\
       os_file o = header ++ render_log ls))) ->
  exists o', _classlist_file st' = Some o' /\
     (((ls ++ run_lines evs st)%list = [] /\ os_file o' = "" /\
       os_buffer o' = header) \/
      ((ls ++ run_lines evs st)%list <> [] /\ os_buffer o' = "" /\
       os_file o' = header ++ render_log (ls ++ run_lines evs st))).
Proof.
  revert st ls. induction evs as [|e evs IH]; intros st ls Hwf Hrun Hinv.
  - simpl in *. injection Hrun as <-. now rewrite app_nil_r.
  - inversion Hwf as [|? ? He Hrest]. subst. cbn [run run_lines] in *.
    destruct (step e st) as [out st1] eqn:Hstep.
    assert (Hout : forall x, out <> Fault x) by (intros x ->; discriminate).
    assert (Hrun1 : run evs st1 = (Val tt, st')).
    { destruct out as [[]|r|x]; auto. now elim (Hout x). }
    assert (Hlines : (ls ++ emitted e st ++
                       match out with
                       | Fault _ => []
                       | _ => run_lines evs st1
                       end = (ls ++ emitted e st) ++ run_lines evs st1)%list).
    { rewrite app_assoc. destruct out as [[]|r|x]; auto. now elim (Hout x). }
    rewrite Hlines. apply (IH st1 _ Hrest Hrun1).
    destruct Hinv as (o & Ho & Hcase).
    destruct (step_file e st st1 out He Hstep Hout)
      as [[-> Hf]|(l & o1 & -> & Ho1 & Hf)].
    + rewrite app_nil_r, Hf. eauto.
    + rewrite Ho in Ho1. injection Ho1 as <-.
      eexists. split; [exact Hf|]. right.
      split; [now destruct ls|]. split; [reflexivity|].
      simpl. rewrite render_log_app. simpl.
      destruct Hcase as [(-> & -> & ->)|(_ & -> & ->)]; simpl.
      * now rewrite !str_app_nil_r.
      * now rewrite !str_app_nil_r, !str_app_assoc.
Qed.

(** X10: [init] prints the header but does not flush it; over any run
    of well-formed events that does not fault, the file is empty and
    the header pending as long as no record was written, and from the
    first record on the buffer is empty and the file holds the header
    followed by all the records. *)
Theorem header_is_flushed_with_the_first_record (flag : string) (w : World)
  (evs : list event) (st : VM) :
  Forall well_formed evs ->
  run evs (init (boot (Some flag) w)) = (Val tt, st) ->
  let ls := run_lines evs (init (boot (Some flag) w)) in
  exists o, _classlist_file st = Some o /\
    (ls = [] -> os_file o = "" /\ os_buffer o = header) /\
    (ls <> [] -> os_buffer o = "" /\ os_file o = header ++ render_log ls).
Proof.
  intros Hwf Hrun ls.
  destruct (run_header_from evs _ st [] Hwf Hrun) as (o & Ho & Hcase).
  - eexists. split; [reflexivity|]. left. auto.
  - simpl in Hcase. fold ls in Hcase. exists o. split; [exact Ho|].
    destruct Hcase as [(Hnil & Hf & Hb)|(Hne & Hb & Hf)].
    + split; [auto|]. intros Hne. now elim Hne.
    + split; [|auto]. intros Hnil. now elim Hne.
Qed.

Lemma run_counter_from (evs : list event) (st st' : VM) (ls : list LogLine) :
  Forall well_formed evs ->
  _total_ids st + Z.of_nat (length evs) < INT_MAX ->
  run evs st = (Val tt, st') ->
  registry_ok st ->
  _total_ids st <= Z.of_nat (length ls) ->
  (forall l, In l ls -> 0 <= ll_id l < _total_ids st) ->
  registry_ok st' /\
  _total_ids st' <= Z.of_nat (length (ls ++ run_lines evs st)) /\
  (forall l, In l (ls ++ run_lines evs st) -> 0 <= ll_id l < _total_ids st').
Proof.
  revert st ls.
  induction evs as [|e evs IH]; intros st ls Hwf Hmax Hrun Hok Hlen Hids.
  - simpl in *. injection Hrun as <-. now rewrite app_nil_r.
  - inversion Hwf as [|? ? He Hrest]. subst.
    cbn [run run_lines length] in *.
    pose proof (emitted_cases e st) as Hem.
    destruct (step e st) as [out st1] eqn:Hstep.
    assert (Hout : forall x, out <> Fault x) by (intros x ->; discriminate).
    assert (Hrun1 : run evs st1 = (Val tt, st')).
    { destruct out as [[]|r|x]; auto. now elim (Hout x). }
    assert (Hlines : (ls ++ emitted e st ++
                       match out with
                       | Fault _ => []
                       | _ => run_lines evs st1
                       end = (ls ++ emitted e st) ++ run_lines evs st1)%list).
    { rewrite app_assoc. destruct out as [[]|r|x]; auto. now elim (Hout x). }
    rewrite Hlines.
    assert (Hstep1 : registry_ok st1 /\
              _total_ids st <= _total_ids st1 /\
              _total_ids st1 <= Z.of_nat (length (ls ++ emitted e st)) /\
              _total_ids st1 <= _total_ids st + 1 /\
              forall l, In l (emitted e st) -> 0 <= ll_id l < _total_ids st1).
    { destruct e as [k cfs|p]; simpl in Hstep, He.
      - destruct out as [[]|r|x]; [| |now elim (Hout x)].
        + rewrite Hem in *.
          destruct (write_val_inv _ _ _ _ He Hstep) as (_ & Ht & Hn & _).
          destruct (registry_ok_get_id (this k) st Hok)
            as (Hok1 & Hold & Hnew); [lia|].
          pose proof (registry_ok_congruence _ _ Ht Hn Hok1) as Hok'.
          assert (Hgrow : _total_ids st <= _total_ids st1 <= _total_ids st + 1).
          { rewrite Hn. destruct (has_id (this k) st);
              [rewrite Hold by reflexivity; lia|].
            destruct (Hnew eq_refl) as [-> _]. lia. }
          split; [exact Hok'|]. rewrite length_app. simpl.
          split; [lia|]. split; [lia|]. split; [lia|].
          intros l0 [<-|[]]. simpl.
          assert (Hl : lookup_id (this k) st1 =
                       Some (fst (get_id (this k) st)))
            by (unfold lookup_id; rewrite Ht; apply lookup_id_get_id_same).
          rewrite (id_of_known _ _ _ Hl).
          destruct Hok' as (_ & Hlt & _). now apply Hlt in Hl.
        + rewrite Hem, app_nil_r.
          destruct (write_return_inv _ _ _ _ _ Hstep) as (Ht & Hn & _).
          split; [now apply (registry_ok_congruence _ _ Ht Hn)|].
          rewrite Hn. split; [lia|]. split; [lia|]. split; [lia|].
          intros l0 [].
      - injection Hstep as <- <-. simpl. rewrite app_nil_r.
        destruct (registry_ok_unloading p st Hok) as [Hok' ->].
        split; [exact Hok'|]. split; [lia|]. split; [lia|]. split; [lia|].
        intros l0 []. }
    destruct Hstep1 as (Hok1 & Hge & Hle & Hle1 & Hnew).
    apply (IH st1 _ Hrest); auto; [lia|].
    intros l Hin. apply in_app_or in Hin. destruct Hin as [Hin|Hin].
    + apply Hids in Hin. lia.
    + now apply Hnew.
Qed.

(** X11: over a run of well-formed events that does not fault (and is
    short enough for the [int] counter), no id is allocated without a
    record: the counter never exceeds the number of records written,
    every id in the log and every live id is between 0 and the
    counter. *)
Theorem every_id_has_a_record (flag : string) (w : World)
  (evs : list event) (st : VM) :
  Forall well_formed evs ->
  Z.of_nat (length evs) < INT_MAX ->
  run evs (init (boot (Some flag) w)) = (Val tt, st) ->
  let ls := run_lines evs (init (boot (Some flag) w)) in
  0 <= _total_ids st <= Z.of_nat (length ls) /\
  (forall l, In l ls -> 0 <= ll_id l < _total_ids st) /\
  (forall k v, lookup_id k st = Some v -> 0 <= v < _total_ids st).
Proof.
  intros Hwf Hlen Hrun ls.
  destruct (run_counter_from evs (init (boot (Some flag) w)) st [] Hwf)
    as (Hok & Hle & Hids).
  - simpl. lia.
  - exact Hrun.
  - apply registry_ok_fresh; reflexivity.
  - simpl. lia.
  - intros l [].
  - simpl in Hle, Hids. destruct Hok as (Hpos & Hlt & _).
    split; [split; [exact Hpos|exact Hle]|]. split; [exact Hids|exact Hlt].
Qed.

End Further.

(** * Properties of the localtab004 agent *)

Module LocaltabFacts.
Import Localtab.

Lemma complains_app (l1 l2 : list message) :
  complains (l1 ++ l2) = complains l1 || complains l2.
Proof. apply existsb_app. Qed.

Lemma scan_expected_spec (m : methodInfo) (e : jvmtiLocalVariableEntry)
  (fuel k : nat) (totRes : Z) (log : list message) :
  (k + fuel <= length (vars m))%nat ->
  exists log',
    scan_expected m e k fuel totRes log =
      Some (if existsb (clashes e) (take fuel (drop k (vars m)))
            then STATUS_FAILED else totRes, log') /\
    complains log' =
      complains log || existsb (clashes e) (take fuel (drop k (vars m))).
Proof.
  revert k log. induction fuel as [|fuel IH]; intros k log Hk.
  - exists log. simpl. now rewrite Bool.orb_false_r.
  - destruct (vars m !! k) as [v|] eqn:Hv;
      [|apply lookup_ge_None in Hv; lia].
    cbn [scan_expected]. rewrite Hv, (drop_S _ _ _ Hv).
    cbn [take existsb]. unfold clashes at 1 3.
    destruct (strcmp (lv_name e) (v_name v) =? 0)%Z; cbn [andb orb].
    + destruct (strcmp (lv_signature e) (v_sign v) =? 0)%Z; cbn [negb orb].
      * destruct (IH (S k) (log ++ [right_signature e])%list) as (log' & H & Hc);
          [lia|].
        exists log'. split; [exact H|]. rewrite Hc, complains_app. simpl.
        now rewrite Bool.orb_false_r.
      * eexists. split; [reflexivity|]. rewrite complains_app. simpl.
        now rewrite !Bool.orb_true_r.
    + apply IH. lia.
Qed.

Lemma scan_table_spec (m : methodInfo)
  (lv_table : list jvmtiLocalVariableEntry) (totRes : Z)
  (log : list message) :
  exists log',
    scan_table m lv_table (length (vars m)) totRes log =
      Some (if table_clashes m lv_table then STATUS_FAILED else totRes, log')
    /\ complains log' = complains log || table_clashes m lv_table.
Proof.
  revert totRes log. induction lv_table as [|e rest IH]; intros totRes log.
  - exists log. simpl. now rewrite Bool.orb_false_r.
  - cbn [scan_table].
    destruct (scan_expected_spec m e (length (vars m)) 0 totRes log)
      as (log1 & -> & Hc1); [simpl; lia|].
    rewrite drop_0, firstn_all in *.
    destruct (IH (if existsb (clashes e) (vars m)
                  then STATUS_FAILED else totRes) log1) as (log2 & -> & Hc2).
    exists log2. unfold table_clashes in *. cbn [existsb].
    rewrite Hc2, Hc1. split.
    + f_equal. f_equal.
      destruct (existsb (clashes e) (vars m)); simpl; [|reflexivity].
      now destruct (existsb _ rest).
    + now rewrite Bool.orb_assoc.
Qed.

Lemma vars_set_mid (id : N) (m : methodInfo) : vars (set_mid id m) = vars m.
Proof. reflexivity. Qed.

(** What the loop over the methods returns: the status it was given if
    every method passes, [STATUS_FAILED] otherwise; and it complains
    exactly when some method does not pass. *)
Lemma check_methods_spec (C : Collaborators) (testedCls : N)
  (ms : list methodInfo) (totRes : Z) (log : list message) :
  Forall counted ms ->
  exists ms' log',
    check_methods C testedCls ms totRes log =
      Some (if forallb (passes C testedCls) ms
            then totRes else STATUS_FAILED, ms', log') /\
    complains log' =
      complains log || negb (forallb (passes C testedCls) ms) /\
    (forallb (passes C testedCls) ms = true ->
     ms' = map (resolved C testedCls) ms).
Proof.
  revert totRes log. induction ms as [|m rest IH]; intros totRes log Hwf.
  - exists [], log. simpl. now rewrite Bool.orb_false_r.
  - inversion Hwf as [|? ? Hm Hrest]. subst.
    cbn [check_methods forallb map]. unfold passes at 1 3 5.
    fold (method_id C testedCls m). fold (resolved C testedCls m).
    destruct (method_id C testedCls m =? 0)%N eqn:Hid; cbn [negb andb].
    { eexists _, _. split; [reflexivity|]. rewrite complains_app. simpl.
      rewrite Bool.orb_true_r. split; [reflexivity|discriminate]. }
    destruct (GetLocalVariableTable C (method_id C testedCls m))
      as [lv_table|]; cbn [negb andb].
    2:{ eexists _, _. split; [reflexivity|]. rewrite complains_app. simpl.
        rewrite Bool.orb_true_r. split; [reflexivity|discriminate]. }
    change (vcount (resolved C testedCls m)) with (vcount m).
    destruct (Z.of_nat (length lv_table) =? vcount m)%Z eqn:Hcount;
      cbn [negb andb].
    + apply Z.eqb_eq in Hcount. unfold counted in Hm.
      assert (Hlen : length lv_table = length (vars m)) by lia.
      rewrite Hlen.
      destruct (scan_table_spec (resolved C testedCls m) lv_table totRes
                  (log ++ [right_count (resolved C testedCls m)
                             (Z.of_nat (length (vars m)))])%list)
        as (log1 & H1 & Hc1).
      change (vars (resolved C testedCls m)) with (vars m) in H1.
      change (table_clashes (resolved C testedCls m) lv_table)
        with (table_clashes m lv_table) in *.
      rewrite H1.
      destruct (IH (if table_clashes m lv_table
                    then STATUS_FAILED else totRes)
                  (log1 ++ [DISPLAY newline])%list Hrest)
        as (rest' & log2 & -> & Hc2 & Hms).
      exists (resolved C testedCls m :: rest'), log2.
      rewrite Hc2, complains_app, Hc1, complains_app. simpl.
      destruct (table_clashes m lv_table); simpl.
      * rewrite !Bool.orb_true_r. simpl.
        split; [now destruct (forallb _ rest)|]. split; [reflexivity|].
        discriminate.
      * rewrite !Bool.orb_false_r.
        split; [reflexivity|]. split; [reflexivity|].
        intros Hall. now rewrite (Hms Hall).
    + destruct (IH STATUS_FAILED
                  (log ++ wrong_count (resolved C testedCls m)
                            (Z.of_nat (length lv_table))
                          :: found_vars 0 lv_table ++ [COMPLAIN newline])%list
                  Hrest) as (rest' & log2 & -> & Hc2 & Hms).
      exists (resolved C testedCls m :: rest'), log2.
      rewrite Hc2, complains_app. simpl. rewrite !Bool.orb_true_r. simpl.
      split; [now destruct (forallb _ rest)|]. split; [reflexivity|].
      discriminate.
Qed.

Lemma table_clashes_false (m : methodInfo)
  (lv_table : list jvmtiLocalVariableEntry) :
  table_clashes m lv_table = false <->
  forall e v, In e lv_table -> In v (vars m) ->
              strcmp (lv_name e) (v_name v) = 0 ->
              strcmp (lv_signature e) (v_sign v) = 0.
Proof.
  unfold table_clashes. split.
  - intros H e v He Hv Hn.
    destruct (strcmp (lv_signature e) (v_sign v) =? 0)%Z eqn:Hs;
      [now apply Z.eqb_eq|].
    assert (Hc : existsb (fun e => existsb (clashes e) (vars m)) lv_table
                 = true).
    { apply existsb_exists. exists e. split; [exact He|].
      apply existsb_exists. exists v. split; [exact Hv|].
      unfold clashes. rewrite Hs. now apply Z.eqb_eq in Hn as ->. }
    congruence.
  - intros H. apply Bool.not_true_is_false. intros Hc.
    apply existsb_exists in Hc. destruct Hc as (e & He & Hc).
    apply existsb_exists in Hc. destruct Hc as (v & Hv & Hc).
    unfold clashes in Hc. apply andb_prop in Hc. destruct Hc as [Hn Hs].
    apply Z.eqb_eq in Hn. rewrite (H e v He Hv Hn) in Hs. discriminate.
Qed.

Lemma passes_iff (C : Collaborators) (testedCls : N) (m : methodInfo) :
  passes C testedCls m = true <-> method_passes C testedCls m.
Proof.
  unfold passes, method_passes. fold (method_id C testedCls m).
  destruct (N.eqb_spec (method_id C testedCls m) 0) as [Hid|Hid];
    cbn [negb andb].
  - split; [discriminate|]. now intros [H _].
  - destruct (GetLocalVariableTable C (method_id C testedCls m))
      as [lv_table|].
    + split.
      * intros H. apply andb_prop in H. destruct H as [Hc Ht].
        split; [exact Hid|]. exists lv_table. split; [reflexivity|].
        split; [now apply Z.eqb_eq|].
        apply table_clashes_false. now apply Bool.negb_true_iff.
      * intros (_ & tb & Heq & Hc & Ht). injection Heq as <-.
        apply Z.eqb_eq in Hc. rewrite Hc. cbn [andb].
        apply Bool.negb_true_iff. now apply table_clashes_false.
    + split; [discriminate|]. intros (_ & tb & Heq & _). discriminate.
Qed.

Lemma all_pass_iff (C : Collaborators) (testedCls : N)
  (ms : list methodInfo) :
  forallb (passes C testedCls) ms = true <->
  Forall (method_passes C testedCls) ms.
Proof.
  rewrite forallb_forall, List.Forall_forall. split.
  - intros H m Hm. now apply passes_iff, H.
  - intros H m Hm. now apply passes_iff, H.
Qed.

(** X12: on a table of methods whose [vcount] is the number of their
    expected variables, [checkAttr] returns [PASSED] or
    [STATUS_FAILED]; it returns [PASSED] exactly when, for every
    method, the id is found, the table is obtained with the expected
    number of entries, and no entry bears the name of an expected
    variable with another signature; it then has stored every id in
    [mid]. *)
Theorem checkAttr_verdict (C : Collaborators) (testedCls : N) (a : agent) :
  Forall counted (methods a) ->
  exists r a',
    checkAttr C testedCls a = Some (r, a') /\
    (r = PASSED \/ r = STATUS_FAILED) /\
    (r = PASSED <-> Forall (method_passes C testedCls) (methods a)) /\
    (r = PASSED -> methods a' = map (resolved C testedCls) (methods a)).
Proof.
  intros Hwf. unfold checkAttr.
  destruct (check_methods_spec C testedCls (methods a) PASSED (messages a) Hwf)
    as (ms' & log' & -> & _ & Hms).
  eexists _, _. split; [reflexivity|]. rewrite <- all_pass_iff.
  destruct (forallb (passes C testedCls) (methods a)).
  - split; [now left|]. split; [tauto|]. intros _. now apply Hms.
  - split; [now right|]. split; [split; discriminate|discriminate].
Qed.

(** X13: [checkAttr] looks up each found variable among the expected
    ones and never the other way round: when every table has the
    expected number of entries and none of its names is an expected
    one, the check passes without a complaint, although no expected
    variable was found. *)
Theorem unknown_names_pass (C : Collaborators) (testedCls : N) (a : agent) :
  Forall counted (methods a) ->
  complains (messages a) = false ->
  (forall m, In m (methods a) ->
     method_id C testedCls m <> 0%N /\
     exists lv_table,
       GetLocalVariableTable C (method_id C testedCls m) = Some lv_table /\
       Z.of_nat (length lv_table) = vcount m /\
       forall e v, In e lv_table -> In v (vars m) ->
                   strcmp (lv_name e) (v_name v) <> 0) ->
  exists a',
    checkAttr C testedCls a = Some (PASSED, a') /\
    complains (messages a') = false.
Proof.
  intros Hwf Hquiet Hnames. unfold checkAttr.
  destruct (check_methods_spec C testedCls (methods a) PASSED (messages a) Hwf)
    as (ms' & log' & -> & Hc & _).
  assert (Hall : forallb (passes C testedCls) (methods a) = true).
  { apply all_pass_iff, List.Forall_forall. intros m Hm.
    destruct (Hnames m Hm) as (Hid & tb & Htb & Hcount & Hno).
    split; [exact Hid|]. exists tb. split; [exact Htb|].
    split; [exact Hcount|]. intros e v He Hv Hn. now elim (Hno e v He Hv). }
  rewrite Hall in *. eexists. split; [reflexivity|]. simpl.
  now rewrite Hc, Hquiet.
Qed.

(** X14: [checkAttr] fails exactly when it complains: started without
    complaints in the log, it returns [STATUS_FAILED] if and only if it
    has added one. *)
Theorem fails_iff_complains (C : Collaborators) (testedCls : N)
  (a a' : agent) (r : Z) :
  Forall counted (methods a) ->
  complains (messages a) = false ->
  checkAttr C testedCls a = Some (r, a') ->
  (r = STATUS_FAILED <-> complains (messages a') = true).
Proof.
  intros Hwf Hquiet. unfold checkAttr.
  destruct (check_methods_spec C testedCls (methods a) PASSED (messages a) Hwf)
    as (ms' & log' & -> & Hc & _).
  intros H. injection H as <- <-. simpl. rewrite Hc, Hquiet. simpl.
  destruct (forallb (passes C testedCls) (methods a)); simpl;
    split; try discriminate; reflexivity.
Qed.

Lemma stops_cases (C : Collaborators) (testedCls : N) (m : methodInfo) :
  stops C testedCls m = false ->
  (method_id C testedCls m =? 0)%N = false /\
  exists lv_table,
    GetLocalVariableTable C (method_id C testedCls m) = Some lv_table.
Proof.
  unfold stops. destruct (method_id C testedCls m =? 0)%N; [discriminate|].
  destruct (GetLocalVariableTable C (method_id C testedCls m));
    [eauto|discriminate].
Qed.

Lemma check_methods_stops (C : Collaborators) (testedCls : N)
  (pre : list methodInfo) (m : methodInfo) (post : list methodInfo)
  (totRes : Z) (log : list message) :
  Forall counted pre ->
  forallb (fun m0 => negb (stops C testedCls m0)) pre = true ->
  stops C testedCls m = true ->
  exists log',
    check_methods C testedCls (pre ++ m :: post) totRes log =
      Some (STATUS_FAILED,
            (map (resolved C testedCls) pre ++
             resolved C testedCls m :: post)%list, log').
Proof.
  revert totRes log. induction pre as [|m0 pre IH]; intros totRes log Hwf Hgo Hstop.
  - cbn [app map check_methods]. fold (method_id C testedCls m).
    fold (resolved C testedCls m). unfold stops in Hstop.
    destruct (method_id C testedCls m =? 0)%N; [eauto|].
    destruct (GetLocalVariableTable C (method_id C testedCls m));
      [discriminate|eauto].
  - inversion Hwf as [|? ? Hm Hrest]. subst.
    cbn [forallb] in Hgo. apply andb_prop in Hgo. destruct Hgo as [Hm0 Hpre].
    apply Bool.negb_true_iff in Hm0.
    destruct (stops_cases _ _ _ Hm0) as (Hid & lv_table & Htb).
    cbn [app map check_methods]. fold (method_id C testedCls m0).
    fold (resolved C testedCls m0). rewrite Hid, Htb.
    change (vcount (resolved C testedCls m0)) with (vcount m0).
    destruct (Z.of_nat (length lv_table) =? vcount m0)%Z eqn:Hcount;
      cbn [negb].
    + apply Z.eqb_eq in Hcount. unfold counted in Hm.
      assert (Hlen : length lv_table = length (vars m0)) by lia.
      rewrite Hlen.
      destruct (scan_table_spec (resolved C testedCls m0) lv_table totRes
                  (log ++ [right_count (resolved C testedCls m0)
                             (Z.of_nat (length (vars m0)))])%list)
        as (log1 & H1 & _).
      change (vars (resolved C testedCls m0)) with (vars m0) in H1.
      rewrite H1.
      match goal with
      | |- context [check_methods C testedCls _ ?t ?l] =>
          destruct (IH t l Hrest Hpre Hstop) as (log2 & ->)
      end.
      eauto.
    + match goal with
      | |- context [check_methods C testedCls _ ?t ?l] =>
          destruct (IH t l Hrest Hpre Hstop) as (log2 & ->)
      end.
      eauto.
Qed.

(** X15: [checkAttr] returns at the first method whose id is not found
    or whose table is not obtained: it returns [STATUS_FAILED], the
    methods before have their ids stored, the method itself too, and
    the methods after it are left as they were, their ids not looked
    up. *)
Theorem checkAttr_returns_at_first_missing_method (C : Collaborators)
  (testedCls : N) (a : agent) (pre : list methodInfo) (m : methodInfo)
  (post : list methodInfo) :
  methods a = (pre ++ m :: post)%list ->
  Forall counted pre ->
  forallb (fun m0 => negb (stops C testedCls m0)) pre = true ->
  stops C testedCls m = true ->
  exists a',
    checkAttr C testedCls a = Some (STATUS_FAILED, a') /\
    methods a' =
      (map (resolved C testedCls) pre ++
       resolved C testedCls m :: post)%list.
Proof.
  intros Hms Hwf Hgo Hstop. unfold checkAttr. rewrite Hms.
  destruct (check_methods_stops C testedCls pre m post PASSED (messages a)
              Hwf Hgo Hstop) as (log' & ->).
  eexists. split; reflexivity.
Qed.

(** X16: when the machine accepts the capability request but reports,
    through [GetCapabilities], that local variables cannot be accessed,
    [Agent_Initialize] still returns [JNI_OK], with one warning
    displayed; [check] then returns [PASSED] for any object without
    calling [checkAttr]: no id is looked up and nothing is printed. *)
Theorem check_passes_without_the_capability (C : Collaborators)
  (options : string) (a : agent) :
  nsk_jvmti_parseOptions C options = true ->
  nsk_jvmti_createJVMTIEnv C <> 0%N ->
  AddCapabilities C {| can_access_local_variables := true |} = true ->
  GetCapabilities C = Some {| can_access_local_variables := false |} ->
  exists a',
    Agent_Initialize C options a = (JNI_OK, a') /\
    messages a' = (messages a ++ [not_implemented])%list /\
    methods a' = methods a /\
    forall testedObj, check C testedObj a' = Some (PASSED, a').
Proof.
  intros Hparse Henv Hadd Hget. unfold Agent_Initialize.
  rewrite Hparse, Hadd, Hget. cbn [negb jvmti].
  destruct (N.eqb_spec (nsk_jvmti_createJVMTIEnv C) 0) as [H0|_];
    [now elim Henv|].
  eexists. split; [reflexivity|]. simpl. repeat split.
Qed.

End LocaltabFacts.

(** * The further properties on concrete inputs *)

Lemma unfinished_line_is_not_flushed_witness :
  flushed (fst (snd (@write_to_stream Demo.Rwin Demo.Task_ Cases.bare
                       (Some Demo.console, Demo.st2win)))) =
    Some "".
Proof.
  rewrite (@unfinished_line_is_not_flushed Demo.Rwin Demo.Task_ Cases.bare
             (Some Demo.console, Demo.st2win)).
  - reflexivity.
  - vm_compute. discriminate.
Defined.

Lemma registration_is_attempted_before_the_gate_witness :
  world (snd (snd (@write_to_stream Demo.R Demo.Task_ Demo.jar
                     (Some Demo.console, Demo.start Demo.R [])))) =
    ["app/Task"] /\
  fst (@write_to_stream Demo.R Demo.Task_ Demo.jar
         (Some Demo.console, Demo.start Demo.R [])) = Return SuperWithoutId.
Proof.
  split; [|vm_compute; reflexivity].
  rewrite (proj2 (proj2 (proj2
            (@registration_is_attempted_before_the_gate Demo.R Demo.Task_
               Demo.jar (Some Demo.console) (Demo.start Demo.R []))))
            "file:/dir/foo.jar" eq_refl eq_refl eq_refl).
  - reflexivity.
  - vm_compute. reflexivity.
Defined.

Lemma marker_rejects_builtin_classes_only_witness :
  fst (@write_to_stream Demo.R Demo.Task_ Demo.jar
         (Some Demo.console, Demo.st2)) <> Return SpeciesCode.
Proof.
  apply (@marker_rejects_builtin_classes_only Demo.R). reflexivity.
Defined.

Lemma builtin_class_ignores_its_source_witness :
  @write_to_stream Demo.R Demo.Object_ Cases.jrt
    (Some Demo.console, Demo.start Demo.R []) =
  @write_to_stream Demo.R Demo.Object_ None
    (Some Demo.console, Demo.start Demo.R []).
Proof.
  apply (@builtin_class_ignores_its_source Demo.R).
  - reflexivity.
  - intros src H. injection H as <-. vm_compute. discriminate.
Defined.

Lemma duplicate_event_is_recorded_again_witness :
  exists st1 line,
    ll_id line = 0 /\
    forall o',
      @write_to_stream Demo.R Demo.Object_ None (Some o', st1) =
        (Val tt,
         (Some (os_flush (os_print (render_line line ++ newline) o')), st1)).
Proof.
  destruct (@duplicate_event_is_recorded_again Demo.R Demo.Object_ None
              Demo.console (Demo.start Demo.R []))
    as (st1 & line & _ & Hid & Hagain).
  - reflexivity.
  - vm_compute. reflexivity.
  - exists st1, line. split; [|exact Hagain]. rewrite Hid.
    vm_compute. reflexivity.
Defined.

Lemma null_stream_faults_after_allocation_witness :
  exists st',
    @write_to_stream Demo.R Demo.Object_ None
      (None, @boot Demo.R None []) = (Fault NullPointer, (None, st')) /\
    @has_id Demo.R 1 st' = true.
Proof.
  destruct (@null_stream_faults_after_allocation Demo.R Demo.Object_ None
              (@boot Demo.R None []))
    as (st' & Hw & Hid & _).
  - vm_compute. reflexivity.
  - exists st'. split; assumption.
Defined.

Lemma unloading_is_a_removal_witness :
  @handle_class_unloading Demo.R 5 Demo.st2 = Demo.st2.
Proof.
  apply (proj1 (@unloading_is_a_removal Demo.R)). vm_compute. reflexivity.
Defined.

Lemma short_location_is_read_past_its_end_witness :
  exists o' st',
    @write_to_stream Demo.Rwin Demo.Task_ Cases.bare
      (Some Demo.console, Demo.st2win) =
      (Fault OutOfBounds, (Some o', st')) /\
    os_file o' = "".
Proof.
  destruct (@short_location_is_read_past_its_end Demo.Rwin Demo.Task_
              "file:" Demo.console Demo.st2win)
    as (o' & st' & Hw & Hf & _).
  - reflexivity.
  - reflexivity.
  - intros _. discriminate.
  - simpl. lia.
  - vm_compute. reflexivity.
  - exists o', st'. split; assumption.
Defined.

Lemma demo_run_completes :
  @run Demo.R Demo.events (Demo.start Demo.R []) =
    (Val tt, snd (@run Demo.R Demo.events (Demo.start Demo.R []))).
Proof. vm_compute. reflexivity. Qed.

Lemma header_is_flushed_with_the_first_record_witness :
  exists o,
    _classlist_file (snd (@run Demo.R Demo.events (Demo.start Demo.R []))) =
      Some o /\
    os_buffer o = "".
Proof.
  destruct (@header_is_flushed_with_the_first_record Demo.R "classes.lst" []
              Demo.events _ demo_events_well_formed demo_run_completes)
    as (o & Ho & _ & Hsome).
  exists o. split; [exact Ho|]. apply Hsome. vm_compute. discriminate.
Defined.

Lemma every_id_has_a_record_witness :
  0 <= _total_ids (snd (@run Demo.R Demo.events (Demo.start Demo.R []))) <= 3.
Proof.
  apply (@every_id_has_a_record Demo.R "classes.lst" [] Demo.events _
           demo_events_well_formed).
  - vm_compute. reflexivity.
  - exact demo_run_completes.
Defined.

Lemma methInfo_counted : Forall Localtab.counted Localtab.methInfo.
Proof. repeat constructor. Qed.

Lemma checkAttr_verdict_witness :
  exists r a',
    Localtab.checkAttr LocaltabDemo.faithful 7 LocaltabDemo.ready =
      Some (r, a') /\
    (r = Localtab.PASSED \/ r = Localtab.STATUS_FAILED).
Proof.
  destruct (LocaltabFacts.checkAttr_verdict LocaltabDemo.faithful 7
              LocaltabDemo.ready methInfo_counted)
    as (r & a' & H & Hr & _).
  exists r, a'. split; assumption.
Defined.

Lemma unknown_names_pass_witness :
  exists a',
    Localtab.checkAttr LocaltabDemo.renaming 7 LocaltabDemo.ready =
      Some (Localtab.PASSED, a').
Proof.
  destruct (LocaltabFacts.unknown_names_pass LocaltabDemo.renaming 7
              LocaltabDemo.ready methInfo_counted eq_refl)
    as (a' & H & _).
  - intros m [<-|[<-|[<-|[]]]].
    all: split; [vm_compute; discriminate|].
    all: eexists; split; [reflexivity|]; split; [reflexivity|].
    all: intros e v He Hv; simpl in He, Hv.
    all: repeat (destruct He as [<-|He];
                 [repeat (destruct Hv as [<-|Hv];
                          [vm_compute; discriminate|]);
                  destruct Hv|]).
    all: destruct He.
  - exists a'. exact H.
Defined.

Lemma fails_iff_complains_witness :
  Localtab.complains (Localtab.messages LocaltabDemo.checked) = false.
Proof.
  destruct (Localtab.complains (Localtab.messages LocaltabDemo.checked))
    eqn:Hc; [|reflexivity].
  apply (LocaltabFacts.fails_iff_complains LocaltabDemo.faithful 7
           LocaltabDemo.ready LocaltabDemo.checked Localtab.PASSED
           methInfo_counted eq_refl) in Hc.
  - discriminate Hc.
  - vm_compute. reflexivity.
Defined.

Lemma checkAttr_returns_at_first_missing_method_witness :
  exists a',
    Localtab.checkAttr LocaltabDemo.without_finMethod 7 LocaltabDemo.ready =
      Some (Localtab.STATUS_FAILED, a') /\
    Localtab.mid (nth 2 (Localtab.methods a') (LocaltabDemo.nth_method 0)) =
      0%N.
Proof.
  destruct (LocaltabFacts.checkAttr_returns_at_first_missing_method
              LocaltabDemo.without_finMethod 7 LocaltabDemo.ready
              [LocaltabDemo.nth_method 0] (LocaltabDemo.nth_method 1)
              [LocaltabDemo.nth_method 2])
    as (a' & H & Hms).
  - reflexivity.
  - repeat constructor.
  - vm_compute. reflexivity.
  - vm_compute. reflexivity.
  - exists a'. split; [exact H|]. rewrite Hms. reflexivity.
Defined.

Lemma check_passes_without_the_capability_witness :
  exists a',
    Localtab.Agent_Initialize LocaltabDemo.without_access "" Localtab.loaded =
      (Localtab.JNI_OK, a') /\
    forall testedObj,
      Localtab.check LocaltabDemo.without_access testedObj a' =
        Some (Localtab.PASSED, a').
Proof.
  destruct (LocaltabFacts.check_passes_without_the_capability
              LocaltabDemo.without_access "" Localtab.loaded)
    as (a' & H & _ & _ & Hcheck).
  - reflexivity.
  - discriminate.
  - reflexivity.
  - reflexivity.
  - exists a'. split; assumption.
Defined.
